(** * RouterOS client and connection manager (src/utils/mikrotik-api.ts)

    A shallow embedding of the three classes of [mikrotik-api.ts]:
    [RouterOSAPI] (the WebSocket session with its tag dispatcher),
    [RouterOSHTTPAPI] (the stateless REST variant) and
    [MikroTikAPIManager] (the fallback logic), followed by the properties
    of the dispatcher, of [disconnect] and of [connect] that the
    specification states about them.  The last parts cover the rest of the
    three classes and their callers ([parseUptimeToSeconds] and
    [disconnectHotspotUser] of the dashboard API, the connection test of
    the settings page) with properties read off the code.

    Asynchrony is modelled by explicit state passing: a session is a record,
    every handler the class installs ([onopen], [onmessage], the two
    [setTimeout] callbacks, ...) is a transition on that record, and the
    promises the code creates live in a store inside the record, named by
    their index.  A run of the program is a list of events. *)

From Stdlib Require Import Ascii.
From stdpp Require Import base option strings gmap list pretty.

Local Open Scope N_scope.

(** ** JavaScript values and errors *)

(** JSON payloads ([Record<string, any>], [any]).  [JUndefined] is the value
    of an absent optional property. *)
#[warnings="-register-all"]
Inductive jsval :=
  | JUndefined
  | JNull
  | JBool (b : bool)
  | JNum (n : Z)
  | JStr (s : string)
  | JArr (items : list jsval)
  | JObj (fields : list (string * jsval)).

(** A thrown value: the constructor name and the message, so that
    [`${error}`] can be rendered as the code's template literals do. *)
Record js_error := mkError { ename : string; emsg : string }.

Definition Error (msg : string) : js_error := mkError "Error" msg.
Definition ReferenceError (msg : string) : js_error := mkError "ReferenceError" msg.

Definition error_to_string (e : js_error) : string :=
  ename e +:+ ": " +:+ emsg e.

(** [x || d] on an optional string: [undefined] and [''] are both falsy. *)
Definition str_or (x : option string) (d : string) : string :=
  match x with
  | Some s => if String.eqb s "" then d else s
  | None => d
  end.

(** [x || d] on an optional number: [undefined] and [0] are both falsy. *)
Definition num_or (x : option N) (d : N) : N :=
  match x with
  | Some 0 => d
  | Some n => n
  | None => d
  end.

(** ** Promises

    A promise is settled at most once: [resolve] and [reject] on a settled
    promise do nothing.  The store is a list; a promise is named by its
    index. *)
Inductive promise (A : Type) :=
  | Pending
  | Fulfilled (v : A)
  | Rejected (e : js_error).
Arguments Pending {A}.
Arguments Fulfilled {A} v.
Arguments Rejected {A} e.

Definition settle {A} (p : nat) (v : promise A) (ps : list (promise A))
  : list (promise A) :=
  match ps !! p with
  | Some Pending => <[p := v]> ps
  | _ => ps
  end.

Definition resolve {A} (p : nat) (v : A) := settle p (Fulfilled v).
Definition reject {A} (p : nat) (e : js_error) := settle (A := A) p (Rejected e).

(** What a caller suspended on [await] observes. *)
Inductive async (A : Type) :=
  | Waiting
  | Returned (a : A)
  | Threw (e : js_error).
Arguments Waiting {A}.
Arguments Returned {A} a.
Arguments Threw {A} e.

Definition await {A} (ps : list (promise A)) (p : nat) : async A :=
  match ps !! p with
  | Some (Fulfilled v) => Returned v
  | Some (Rejected e) => Threw e
  | _ => Waiting
  end.

Definition async_bind {A B} (x : async A) (k : A → async B) : async B :=
  match x with
  | Waiting => Waiting
  | Returned a => k a
  | Threw e => Threw e
  end.

(** [try { x } catch (error) { h error }] *)
Definition try_catch {A} (x : async A) (h : js_error → async A) : async A :=
  match x with
  | Threw e => h e
  | _ => x
  end.

Notation "x ←await y ; z" := (async_bind y (λ x, z))
  (at level 20, y at level 100, z at level 200, only parsing).

(** ** Commands and replies *)

Record RouterOSCommand := {
  command : string;
  arguments : option (list (string * string))
}.

(** [type: 'data' | 'done' | 'trap' | 'fatal'], as the interface declares
    it. *)
Inductive reply_type := TData | TDone | TTrap | TFatal.

#[global] Instance reply_type_eq_dec : EqDecision reply_type.
Proof. solve_decision. Defined.

Record RouterOSResponse := {
  type : reply_type;
  tag : option string;
  data : jsval;
  message : option string
}.

Definition is_terminal (ty : reply_type) : bool :=
  match ty with
  | TData => false
  | TDone | TTrap | TFatal => true
  end.

(** ** The WebSocket session: class RouterOSAPI *)

(** [++this.tagCounter] on a JavaScript number is exact below 2^53 and
    sticks there (2^53 + 1 rounds back to 2^53). *)
Definition js_incr (n : N) : N := if decide (n < 2 ^ 53) then n + 1 else n.

(** [`tag${n}`] *)
Definition tag_of (n : N) : string := "tag" +:+ pretty n.

(** What the session does to the outside world, in order. *)
Inductive effect :=
  | WsNew (url : string)
  | WsSend (msg : list (string * string))
  | WsCloseCall
  | ConsoleError (text : string).

Record RouterOSAPI := mkSession {
  ws : option string;              (* the socket, named by its URL; None is null *)
  connected : bool;
  host : string;
  username : string;
  password : string;
  port : N;
  callbacks : gmap string nat;     (* tag ↦ the promise its closure settles *)
  tagCounter : N;
  (* objects the closures of the class keep alive *)
  promises : list (promise RouterOSResponse);  (* created by sendCommand *)
  timers : gmap nat string;        (* armed 30 s timers: promise ↦ tag *)
  connects : list (promise bool);  (* created by connect *)
  logins : list (nat * nat);       (* onopen handlers suspended in login():
                                      (sendCommand promise, connect promise) *)
  io : list effect
}.

Definition RouterOSAPI_new : RouterOSAPI :=
  {| ws := None; connected := false; host := ""; username := "";
     password := ""; port := 8728; callbacks := ∅; tagCounter := 0;
     promises := []; timers := ∅; connects := []; logins := []; io := [] |}.

Definition set_ws (x : option string) (s : RouterOSAPI) : RouterOSAPI :=
  mkSession x (connected s) (host s) (username s) (password s) (port s)
    (callbacks s) (tagCounter s) (promises s) (timers s) (connects s)
    (logins s) (io s).
Definition set_connected (x : bool) (s : RouterOSAPI) : RouterOSAPI :=
  mkSession (ws s) x (host s) (username s) (password s) (port s)
    (callbacks s) (tagCounter s) (promises s) (timers s) (connects s)
    (logins s) (io s).
Definition set_target (h u pw : string) (pt : N) (s : RouterOSAPI) : RouterOSAPI :=
  mkSession (ws s) (connected s) h u pw pt
    (callbacks s) (tagCounter s) (promises s) (timers s) (connects s)
    (logins s) (io s).
Definition set_callbacks (x : gmap string nat) (s : RouterOSAPI) : RouterOSAPI :=
  mkSession (ws s) (connected s) (host s) (username s) (password s) (port s)
    x (tagCounter s) (promises s) (timers s) (connects s) (logins s) (io s).
Definition set_tagCounter (x : N) (s : RouterOSAPI) : RouterOSAPI :=
  mkSession (ws s) (connected s) (host s) (username s) (password s) (port s)
    (callbacks s) x (promises s) (timers s) (connects s) (logins s) (io s).
Definition set_promises (x : list (promise RouterOSResponse)) (s : RouterOSAPI)
  : RouterOSAPI :=
  mkSession (ws s) (connected s) (host s) (username s) (password s) (port s)
    (callbacks s) (tagCounter s) x (timers s) (connects s) (logins s) (io s).
Definition set_timers (x : gmap nat string) (s : RouterOSAPI) : RouterOSAPI :=
  mkSession (ws s) (connected s) (host s) (username s) (password s) (port s)
    (callbacks s) (tagCounter s) (promises s) x (connects s) (logins s) (io s).
Definition set_connects (x : list (promise bool)) (s : RouterOSAPI) : RouterOSAPI :=
  mkSession (ws s) (connected s) (host s) (username s) (password s) (port s)
    (callbacks s) (tagCounter s) (promises s) (timers s) x (logins s) (io s).
Definition set_logins (x : list (nat * nat)) (s : RouterOSAPI) : RouterOSAPI :=
  mkSession (ws s) (connected s) (host s) (username s) (password s) (port s)
    (callbacks s) (tagCounter s) (promises s) (timers s) (connects s) x (io s).
Definition emit (e : effect) (s : RouterOSAPI) : RouterOSAPI :=
  mkSession (ws s) (connected s) (host s) (username s) (password s) (port s)
    (callbacks s) (tagCounter s) (promises s) (timers s) (connects s)
    (logins s) (io s ++ [e]).

(** [{ command: command.command, tag: tag, ...command.arguments }]: the
    spread comes last, so an argument named like an earlier key replaces its
    value in place. *)
Fixpoint obj_set (k v : string) (o : list (string * string))
  : list (string * string) :=
  match o with
  | [] => [(k, v)]
  | (k', v') :: o' =>
      if String.eqb k k' then (k, v) :: o' else (k', v') :: obj_set k v o'
  end.

Definition wire_message (c : RouterOSCommand) (tg : string)
  : list (string * string) :=
  foldl (λ o kv, obj_set kv.1 kv.2 o)
        [("command", command c); ("tag", tg)]
        (default [] (arguments c)).

(** The closure stored under a tag by [sendCommand] (lines 128-134), applied
    to a reply: it holds the [resolve] and [reject] of promise [p]. *)
Definition callback (p : nat) (r : RouterOSResponse)
    (ps : list (promise RouterOSResponse)) : list (promise RouterOSResponse) :=
  match type r with
  | TDone => resolve p r ps
  | TTrap | TFatal => reject p (Error (str_or (message r) "Command failed")) ps
  | TData => ps
  end.

(** [sendCommand] (lines 113-146).  Returns the session and the promise
    handed to the caller.  [ws.send] is taken on a socket that has left the
    connecting state, where it returns without throwing; the guard lets it
    be reached only once [connected] is set, which [onopen] does. *)
Definition sendCommand (s : RouterOSAPI) (c : RouterOSCommand)
  : RouterOSAPI * nat :=
  let p := length (promises s) in
  if negb (bool_decide (is_Some (ws s))) || negb (connected s) then
    (set_promises
       (promises s ++ [Rejected (Error "Not connected to RouterOS")]) s, p)
  else
    let n := js_incr (tagCounter s) in
    let tg := tag_of n in
    let s1 := set_tagCounter n (set_promises (promises s ++ [Pending]) s) in
    let s2 := set_callbacks (<[tg := p]> (callbacks s1)) s1 in
    let s3 := emit (WsSend (wire_message c tg)) s2 in
    (set_timers (<[p := tg]> (timers s3)) s3, p).

(** [handleMessage] (lines 98-111).  The argument is the outcome of
    [JSON.parse(data)] read as a [RouterOSResponse]: [None] when the [try]
    block throws before the lookup (the text is not JSON, or is [null]). *)
Definition handleMessage (s : RouterOSAPI) (parsed : option RouterOSResponse)
  : RouterOSAPI :=
  match parsed with
  | None => emit (ConsoleError "Failed to parse RouterOS response:") s
  | Some r =>
      let key := default "" (tag r) in
      match callbacks s !! key with
      | Some p =>
          let s1 := set_promises (callback p r (promises s)) s in
          if is_terminal (type r)
          then set_callbacks (delete key (callbacks s1)) s1
          else s1
      | None => s
      end
  end.

(** The 30 s timer armed by [sendCommand] for promise [p] (lines 139-144).
    A timer fires once; an event for a timer that is not armed is no event. *)
Definition commandTimeout (s : RouterOSAPI) (p : nat) : RouterOSAPI :=
  match timers s !! p with
  | None => s
  | Some tg =>
      let s1 := set_timers (delete p (timers s)) s in
      if bool_decide (is_Some (callbacks s1 !! tg)) then
        set_promises (reject p (Error "Command timeout") (promises s1))
          (set_callbacks (delete tg (callbacks s1)) s1)
      else s1
  end.

(** [disconnect] (lines 212-219). *)
Definition disconnect (s : RouterOSAPI) : RouterOSAPI :=
  let s1 := match ws s with
            | Some _ => set_ws None (emit WsCloseCall s)
            | None => s
            end in
  set_callbacks ∅ (set_connected false s1).

(** [isConnected] (lines 221-223). *)
Definition isConnected (s : RouterOSAPI) : bool := connected s.

(** [ws.onclose] (lines 64-66). *)
Definition onclose (s : RouterOSAPI) : RouterOSAPI := set_connected false s.

(** ** Login and connect *)

(** The command built by [login] (lines 83-89). *)
Definition loginCommand (s : RouterOSAPI) : RouterOSCommand :=
  {| command := "/login";
     arguments := Some [("name", username s); ("password", password s)] |}.

(** [login] after its [await this.sendCommand(loginCommand)] (lines 91-95). *)
Definition login_k (x : async RouterOSResponse) : async bool :=
  try_catch
    (response ←await x; Returned (bool_decide (type response = TDone)))
    (λ _, Returned false).

(** The rest of the [onopen] handler once [login()] has an answer
    (lines 48-53), for the handler suspended on promise [pc.1] whose
    enclosing connect promise is [pc.2]. *)
Definition finish_login (s : RouterOSAPI) (pc : nat * nat) : RouterOSAPI :=
  match login_k (await (promises s) pc.1) with
  | Waiting => set_logins (logins s ++ [pc]) s
  | Returned loginResult =>
      set_connects (resolve pc.2 loginResult (connects s))
        (set_connected loginResult s)
  | Threw e => set_connects (reject pc.2 e (connects s)) s
  end.

(** The microtasks that run after a handler returns: every suspended
    [onopen] handler whose promise has settled continues. *)
Definition resume_logins (s : RouterOSAPI) : RouterOSAPI :=
  foldl finish_login (set_logins [] s) (logins s).

(** [ws.onopen] (lines 45-54) up to its first suspension. *)
Definition onopen (s : RouterOSAPI) (c : nat) : RouterOSAPI :=
  let '(s1, p) := sendCommand s (loginCommand s) in
  set_logins (logins s1 ++ [(p, c)]) s1.

(** [connect] (lines 26-78) up to the promise it returns.  [ctor] is the
    exception [new WebSocket(wsUrl)] throws, if it throws. *)
Definition connect (s : RouterOSAPI) (h u pw : string) (pt : N)
    (ctor : option js_error) : RouterOSAPI * nat :=
  let s1 := set_target h u pw pt s in
  let c := length (connects s1) in
  let wsUrl := "ws://" +:+ h +:+ ":" +:+ pretty (pt + 1) in
  match ctor with
  | Some e =>
      (set_connects
         (connects s1 ++
            [Rejected (Error ("Connection failed: " +:+ error_to_string e))])
         s1, c)
  | None =>
      (set_connects (connects s1 ++ [Pending])
         (emit (WsNew wsUrl) (set_ws (Some wsUrl) s1)), c)
  end.

(** ** Events and runs *)

Inductive event :=
  | EvOpen (c : nat)                 (* onopen of the socket of connect c *)
  | EvError (c : nat)                (* onerror of the socket of connect c *)
  | EvMessage (parsed : option RouterOSResponse)   (* onmessage *)
  | EvClose                          (* onclose *)
  | EvConnectTimeout (c : nat)       (* the 10 s timer of connect c *)
  | EvCommandTimeout (p : nat)       (* the 30 s timer of sendCommand p *)
  | EvSendCommand (cmd : RouterOSCommand)   (* a caller starts an operation *)
  | EvConnect (h u pw : string) (pt : N) (ctor : option js_error)
                                     (* a caller calls connect() *)
  | EvDisconnect.                    (* a caller calls disconnect() *)

(** The handler an event runs, up to its first suspension.  An [onopen]
    for a connect that was never made is no event. *)
Definition handle (s : RouterOSAPI) (e : event) : RouterOSAPI :=
  match e with
  | EvOpen c =>
      if bool_decide (c < length (connects s))%nat then onopen s c else s
  | EvError c =>
      set_connects
        (reject c (Error "WebSocket connection failed") (connects s)) s
  | EvMessage parsed => handleMessage s parsed
  | EvClose => onclose s
  | EvConnectTimeout c =>
      if negb (connected s)
      then set_connects (reject c (Error "Connection timeout") (connects s)) s
      else s
  | EvCommandTimeout p => commandTimeout s p
  | EvSendCommand cmd => (sendCommand s cmd).1
  | EvConnect h u pw pt ctor => (connect s h u pw pt ctor).1
  | EvDisconnect => disconnect s
  end.

(** One turn of the event loop: the handler, then the microtasks. *)
Definition step (s : RouterOSAPI) (e : event) : RouterOSAPI :=
  resume_logins (handle s e).

Definition run (s : RouterOSAPI) (evs : list event) : RouterOSAPI :=
  foldl step s evs.

(** [await] of a [sendCommand] promise: events are taken from the script
    until the promise is settled; what is left of the script is returned. *)
Fixpoint await_command (s : RouterOSAPI) (p : nat) (evs : list event)
  : RouterOSAPI * async RouterOSResponse * list event :=
  match await (promises s) p with
  | Waiting =>
      match evs with
      | [] => (s, Waiting, [])
      | e :: evs' => await_command (step s e) p evs'
      end
  | r => (s, r, evs)
  end.

Fixpoint await_connect (s : RouterOSAPI) (c : nat) (evs : list event)
  : RouterOSAPI * async bool * list event :=
  match await (connects s) c with
  | Waiting =>
      match evs with
      | [] => (s, Waiting, [])
      | e :: evs' => await_connect (step s e) c evs'
      end
  | r => (s, r, evs)
  end.

(** ** Typed operations of the session (lines 148-210)

    Each is [sendCommand] followed by a continuation of the awaited reply. *)

Definition run_op {A} (cmd : RouterOSCommand)
    (k : async RouterOSResponse → async A)
    (s : RouterOSAPI) (evs : list event) : RouterOSAPI * async A * list event :=
  let '(s1, p) := sendCommand s cmd in
  let '(s2, r, rest) := await_command s1 p evs in
  (s2, k r, rest).

Definition print_cmd (path : string) : RouterOSCommand :=
  {| command := path; arguments := None |}.

Definition data_k (x : async RouterOSResponse) : async jsval :=
  response ←await x; Returned (data response).

(** [Array.isArray(response.data) ? response.data : [response.data]] *)
Definition list_k (x : async RouterOSResponse) : async (list jsval) :=
  response ←await x;
  Returned (match data response with JArr items => items | d => [d] end).

(** [try { await ...; return true } catch (error) { return false }] *)
Definition bool_k (x : async RouterOSResponse) : async bool :=
  try_catch (response ←await x; Returned true) (λ _, Returned false).

Definition getSystemResource := run_op (print_cmd "/system/resource/print") data_k.
Definition getInterfaces := run_op (print_cmd "/interface/print") list_k.
Definition getHotspotActive := run_op (print_cmd "/ip/hotspot/active/print") list_k.
Definition getHotspotUsers := run_op (print_cmd "/ip/hotspot/user/print") list_k.

Definition addHotspotUser_cmd (name pw : string) (profile : option string)
  : RouterOSCommand :=
  {| command := "/ip/hotspot/user/add";
     arguments := Some [("name", name); ("password", pw);
                        ("profile", default "default" profile)] |}.
Definition removeHotspotUser_cmd (id : string) : RouterOSCommand :=
  {| command := "/ip/hotspot/user/remove";
     arguments := Some [("numbers", id)] |}.
Definition disconnectActiveUser_cmd (id : string) : RouterOSCommand :=
  {| command := "/ip/hotspot/active/remove";
     arguments := Some [("numbers", id)] |}.

Definition addHotspotUser (name pw : string) (profile : option string) :=
  run_op (addHotspotUser_cmd name pw profile) bool_k.
Definition removeHotspotUser (id : string) :=
  run_op (removeHotspotUser_cmd id) bool_k.
Definition disconnectActiveUser (id : string) :=
  run_op (disconnectActiveUser_cmd id) bool_k.

(** ** The stateless variant: class RouterOSHTTPAPI *)

Module HTTP.

Record RouterOSHTTPAPI := mkApi {
  baseUrl : string;
  username : string;
  password : string;
  sessionId : string
}.

Definition new : RouterOSHTTPAPI :=
  {| baseUrl := ""; username := ""; password := ""; sessionId := "" |}.

(** A [fetch] call.  [credentials] is the pair the [Authorization] header
    is computed from (['Basic ' + btoa(`${username}:${password}`)]). *)
Record request := {
  url : string;
  method : string;
  credentials : string * string;
  body : option jsval
}.

(** What [fetch] gives back: the promise rejects (network failure), or a
    response with [ok], [status], [statusText] and the outcome of
    [response.json()]. *)
Inductive fetch_result :=
  | FetchFails (e : js_error)
  | FetchResponse (ok : bool) (status : N) (statusText : string)
                  (json : js_error + jsval).

Definition truthy (v : jsval) : bool :=
  match v with
  | JUndefined | JNull | JBool false | JNum 0%Z | JStr "" => false
  | _ => true
  end.

Definition http_error (status : N) (statusText : string) : js_error :=
  Error ("HTTP " +:+ pretty status +:+ ": " +:+ statusText).

(** [connect] (lines 235-258). *)
Definition connect (a : RouterOSHTTPAPI) (host user pw : string) (port : N)
    (useHttps : bool) (fetch : request → fetch_result)
  : RouterOSHTTPAPI * async bool :=
  let base := (if useHttps then "https" else "http") +:+ "://" +:+ host
                +:+ ":" +:+ pretty port +:+ "/rest" in
  let a1 := mkApi base user pw (sessionId a) in
  let attempt :=
    match fetch {| url := base +:+ "/system/resource"; method := "GET";
                   credentials := (user, pw); body := None |} with
    | FetchFails e => Threw e
    | FetchResponse ok status statusText _ =>
        if ok then Returned true else Threw (http_error status statusText)
    end in
  (a1, try_catch attempt
         (λ error, Threw (Error ("Connection failed: "
                                   +:+ error_to_string error)))).

(** [makeRequest] (lines 260-282). *)
Definition makeRequest (a : RouterOSHTTPAPI) (endpoint : string)
    (meth : string) (payload : jsval) (fetch : request → fetch_result)
  : async jsval :=
  let options :=
    {| url := baseUrl a +:+ endpoint; method := meth;
       credentials := (username a, password a);
       body := if truthy payload && negb (String.eqb meth "GET")
               then Some payload else None |} in
  match fetch options with
  | FetchFails e => Threw e
  | FetchResponse ok status statusText json =>
      if negb ok then Threw (http_error status statusText)
      else match json with
           | inr v => Returned v
           | inl e => Threw e
           end
  end.

(** [getSystemResource] (lines 284-286). *)
Definition getSystemResource (a : RouterOSHTTPAPI)
    (fetch : request → fetch_result) : async jsval :=
  makeRequest a "/system/resource" "GET" JUndefined fetch.

End HTTP.

(** ** The connection manager: class MikroTikAPIManager *)

Inductive api_kind := ApiWs | ApiHttp.

Record Config := {
  cfg_host : string;
  cfg_username : string;
  cfg_password : string;
  cfg_port : N;
  cfg_useHttps : bool
}.

Record MikroTikAPIManager := mkManager {
  wsApi : RouterOSAPI;
  httpApi : HTTP.RouterOSHTTPAPI;
  currentApi : option api_kind;
  config : option Config
}.

Definition MikroTikAPIManager_new : MikroTikAPIManager :=
  {| wsApi := RouterOSAPI_new; httpApi := HTTP.new;
     currentApi := None; config := None |}.

(** The object [connect] returns. *)
Record ConnectResult := {
  success : bool;
  method : option string;
  error : option string;
  systemInfo : jsval
}.

(** The calls [connect] makes on its two clients and on the console, in
    order. *)
Inductive call :=
  | CallWsConnect
  | CallWsGetSystemResource
  | CallHttpConnect
  | CallHttpGetSystemResource
  | ConsoleWarn (text : string) (e : js_error).

(** What the outside world does during one [connect]: whether
    [new WebSocket] throws, the events delivered to the session while the
    manager awaits it, and the answer to the [n]-th [fetch]. *)
Record environment := {
  ws_ctor : option js_error;
  ws_events : list event;
  fetch : nat → HTTP.request → HTTP.fetch_result
}.

(** Lines 365-378: the HTTP fallback.  Inside [catch (httpError)] the
    template literal reads [wsError], a name bound only inside the first
    [catch] clause: evaluating it throws a ReferenceError, which leaves
    [connect] as a rejection. *)
Definition connect_http (m : MikroTikAPIManager) (h u pw : string)
    (pt : option N) (useHttps : bool) (env : environment) (before : list call)
  : MikroTikAPIManager * async ConnectResult * list call :=
  let '(a1, httpConnected) :=
    HTTP.connect (httpApi m) h u pw (num_or pt 80) useHttps (fetch env 0%nat) in
  let m1 := mkManager (wsApi m) a1 (currentApi m) (config m) in
  let calls := before ++ [CallHttpConnect] in
  let catch_httpError (m' : MikroTikAPIManager) (calls' : list call)
      (httpError : js_error) :=
    (m', Threw (ReferenceError "wsError is not defined"),
     calls' ++ [ConsoleWarn "HTTP API connection failed:" httpError]) in
  match httpConnected with
  | Returned true =>
      let m2 := mkManager (wsApi m1) a1 (Some ApiHttp) (config m1) in
      let calls2 := calls ++ [CallHttpGetSystemResource] in
      match HTTP.getSystemResource a1 (fetch env 1%nat) with
      | Returned info =>
          (m2, Returned {| success := true; method := Some "HTTP REST API";
                           error := None; systemInfo := info |}, calls2)
      | Threw httpError => catch_httpError m2 calls2 httpError
      | Waiting => (m2, Waiting, calls2)
      end
  | Returned false =>
      (m1, Returned {| success := false; method := None;
                       error := Some "No API method available";
                       systemInfo := JUndefined |}, calls)
  | Threw httpError => catch_httpError m1 calls httpError
  | Waiting => (m1, Waiting, calls)
  end.

(** [connect] (lines 350-379). *)
Definition Manager_connect (m : MikroTikAPIManager) (h u pw : string)
    (pt : option N) (useHttps : bool) (env : environment)
  : MikroTikAPIManager * async ConnectResult * list call :=
  let cfg := {| cfg_host := h; cfg_username := u; cfg_password := pw;
                cfg_port := num_or pt 8728; cfg_useHttps := useHttps |} in
  let '(w1, c) := connect (wsApi m) h u pw (num_or pt 8728) (ws_ctor env) in
  let '(w2, wsConnected, rest) := await_connect w1 c (ws_events env) in
  let m1 := mkManager w2 (httpApi m) (currentApi m) (Some cfg) in
  match wsConnected with
  | Waiting => (m1, Waiting, [CallWsConnect])
  | Returned true =>
      let '(w3, systemInfo, _) := getSystemResource w2 rest in
      let m2 := mkManager w3 (httpApi m) (Some ApiWs) (Some cfg) in
      let calls := [CallWsConnect; CallWsGetSystemResource] in
      match systemInfo with
      | Waiting => (m2, Waiting, calls)
      | Returned info =>
          (m2, Returned {| success := true; method := Some "WebSocket API";
                           error := None; systemInfo := info |}, calls)
      | Threw wsError =>
          connect_http m2 h u pw pt useHttps env
            (calls ++ [ConsoleWarn "WebSocket API connection failed:" wsError])
      end
  | Returned false => connect_http m1 h u pw pt useHttps env [CallWsConnect]
  | Threw wsError =>
      connect_http m1 h u pw pt useHttps env
        [CallWsConnect; ConsoleWarn "WebSocket API connection failed:" wsError]
  end.

(** [isConnected] (lines 415-419). *)
Definition Manager_isConnected (m : MikroTikAPIManager) : bool :=
  match currentApi m with
  | Some ApiWs => isConnected (wsApi m)
  | Some ApiHttp => true
  | None => false
  end.

(** [disconnect] (lines 421-426). *)
Definition Manager_disconnect (m : MikroTikAPIManager) : MikroTikAPIManager :=
  let w := match currentApi m with
           | Some ApiWs => disconnect (wsApi m)
           | _ => wsApi m
           end in
  mkManager w (httpApi m) None (config m).

(** [getCurrentMethod] (lines 428-430). *)
Definition getCurrentMethod (m : MikroTikAPIManager) : option string :=
  match currentApi m with
  | Some ApiWs => Some "ws"
  | Some ApiHttp => Some "http"
  | None => None
  end.

(** ** The other operations of RouterOSHTTPAPI (lines 288-329) *)

Definition HTTP_getInterfaces (a : HTTP.RouterOSHTTPAPI)
    (fetch : HTTP.request → HTTP.fetch_result) : async jsval :=
  HTTP.makeRequest a "/interface" "GET" JUndefined fetch.

Definition HTTP_getHotspotActive (a : HTTP.RouterOSHTTPAPI)
    (fetch : HTTP.request → HTTP.fetch_result) : async jsval :=
  HTTP.makeRequest a "/ip/hotspot/active" "GET" JUndefined fetch.

Definition HTTP_getHotspotUsers (a : HTTP.RouterOSHTTPAPI)
    (fetch : HTTP.request → HTTP.fetch_result) : async jsval :=
  HTTP.makeRequest a "/ip/hotspot/user" "GET" JUndefined fetch.

(** [try { await this.makeRequest(...); return true } catch (error)
    { return false }] *)
Definition HTTP_bool_k (x : async jsval) : async bool :=
  try_catch (answer ←await x; Returned true) (λ _, Returned false).

Definition HTTP_addHotspotUser (a : HTTP.RouterOSHTTPAPI) (name pw : string)
    (profile : option string) (fetch : HTTP.request → HTTP.fetch_result)
  : async bool :=
  HTTP_bool_k
    (HTTP.makeRequest a "/ip/hotspot/user" "POST"
       (JObj [("name", JStr name); ("password", JStr pw);
              ("profile", JStr (default "default" profile))]) fetch).

Definition HTTP_removeHotspotUser (a : HTTP.RouterOSHTTPAPI) (id : string)
    (fetch : HTTP.request → HTTP.fetch_result) : async bool :=
  HTTP_bool_k
    (HTTP.makeRequest a ("/ip/hotspot/user/" +:+ id) "DELETE" JUndefined fetch).

Definition HTTP_disconnectActiveUser (a : HTTP.RouterOSHTTPAPI) (id : string)
    (fetch : HTTP.request → HTTP.fetch_result) : async bool :=
  HTTP_bool_k
    (HTTP.makeRequest a ("/ip/hotspot/active/" +:+ id) "DELETE" JUndefined
       fetch).

(** ** The delegating operations of the manager (lines 381-413) *)

Definition NoActiveApi : js_error := Error "No active API connection".

(** [this.getActiveApi().op(...)] inside an [async] method: the operation of
    the WebSocket session when the current method is ws (driven by the
    events of the environment), that of the HTTP client when it is http
    (one [fetch]), and the error thrown by [getActiveApi] otherwise. *)
Definition Manager_op {A}
    (wsOp : RouterOSAPI → list event → RouterOSAPI * async A * list event)
    (httpOp : HTTP.RouterOSHTTPAPI → (HTTP.request → HTTP.fetch_result)
              → async A)
    (m : MikroTikAPIManager) (env : environment)
  : MikroTikAPIManager * async A :=
  match currentApi m with
  | Some ApiWs =>
      let '(w, r, _) := wsOp (wsApi m) (ws_events env) in
      (mkManager w (httpApi m) (currentApi m) (config m), r)
  | Some ApiHttp => (m, httpOp (httpApi m) (fetch env 0%nat))
  | None => (m, Threw NoActiveApi)
  end.

(** The WebSocket list operations answer [any[]]; here [any]. *)
Definition any_list (op : RouterOSAPI → list event
                          → RouterOSAPI * async (list jsval) * list event)
    (s : RouterOSAPI) (evs : list event)
  : RouterOSAPI * async jsval * list event :=
  let '(s', r, rest) := op s evs in
  (s', items ←await r; Returned (JArr items), rest).

Definition Manager_getSystemResource :=
  Manager_op getSystemResource HTTP.getSystemResource.
Definition Manager_getInterfaces :=
  Manager_op (any_list getInterfaces) HTTP_getInterfaces.
Definition Manager_getHotspotActive :=
  Manager_op (any_list getHotspotActive) HTTP_getHotspotActive.
Definition Manager_getHotspotUsers :=
  Manager_op (any_list getHotspotUsers) HTTP_getHotspotUsers.
Definition Manager_addHotspotUser (name pw : string) (profile : option string) :=
  Manager_op (addHotspotUser name pw profile)
    (λ a, HTTP_addHotspotUser a name pw profile).
Definition Manager_removeHotspotUser (id : string) :=
  Manager_op (removeHotspotUser id) (λ a, HTTP_removeHotspotUser a id).
Definition Manager_disconnectActiveUser (id : string) :=
  Manager_op (disconnectActiveUser id) (λ a, HTTP_disconnectActiveUser a id).

(** ** Saving the configuration (lines 432-436) *)

Section saveConfig.
(** [JSON.stringify] on a configuration object. *)
Variable JSON_stringify : Config → string.

(** [saveConfig]; [localStorage] is a map from keys to strings. *)
Definition saveConfig (m : MikroTikAPIManager) (localStorage : gmap string string)
  : gmap string string :=
  match config m with
  | Some cfg => <["mikrotik_config" := JSON_stringify cfg]> localStorage
  | None => localStorage
  end.

(** *** Settings.tsx: the connection test (lines 71-111)

    What [handleTestMikroTikConnection] passes to [setMikrotikStatus]. *)
Record MikrotikStatus := {
  st_connected : bool;
  st_method : option string;
  st_systemInfo : jsval;
  st_error : option string
}.

(** [handleTestMikroTikConnection] on the settings [host], [user], [pw] and
    [pt].  The status is [None] while [connect] has not settled (the
    handler set it to [null] on entry). *)
Definition handleTestMikroTikConnection (m : MikroTikAPIManager)
    (localStorage : gmap string string) (h u pw : string) (pt : N)
    (env : environment)
  : MikroTikAPIManager * gmap string string * option MikrotikStatus :=
  let '(m', result, _) := Manager_connect m h u pw (Some pt) false env in
  match result with
  | Waiting => (m', localStorage, None)
  | Returned r =>
      if success r then
        (m', saveConfig m' localStorage,
         Some {| st_connected := true; st_method := method r;
                 st_systemInfo := systemInfo r; st_error := None |})
      else
        (m', localStorage,
         Some {| st_connected := false; st_method := None;
                 st_systemInfo := JUndefined;
                 st_error := Some (str_or (error r) "Connection failed") |})
  | Threw e =>
      (m', localStorage,
       Some {| st_connected := false; st_method := None;
               st_systemInfo := JUndefined; st_error := Some (emsg e) |})
  end.
End saveConfig.

(** ** The callers in the dashboard API (parseUptimeToSeconds and the
    hotspot operations that go through the manager) *)

(** [\d] *)
Definition is_digit (c : Ascii.ascii) : bool :=
  (48 <=? Ascii.nat_of_ascii c)%nat && (Ascii.nat_of_ascii c <=? 57)%nat.

Definition digit_value (c : Ascii.ascii) : N :=
  N.of_nat (Ascii.nat_of_ascii c - 48).

(** The seconds of one unit letter: the four branches of the [forEach]. *)
Definition unit_seconds (c : Ascii.ascii) : option N :=
  if Ascii.eqb c "d"%char then Some (24 * 60 * 60)
  else if Ascii.eqb c "h"%char then Some (60 * 60)
  else if Ascii.eqb c "m"%char then Some 60
  else if Ascii.eqb c "s"%char then Some 1
  else None.

(** [uptime.match(/(\d+)d|(\d+)h|(\d+)m|(\d+)s/g)] followed by the
    [forEach]: a match is a maximal run of digits directly followed by one
    of the four letters.  [digits] is the value of the run of digits that
    ends at the current position, if there is one.  Numbers are JavaScript
    doubles; the sum below is the code's as long as it stays below 2^53. *)
Fixpoint uptime_scan (digits : option N) (s : string) : N :=
  match s with
  | EmptyString => 0
  | String c s' =>
      if is_digit c
      then uptime_scan (Some (10 * default 0 digits + digit_value c)) s'
      else match digits, unit_seconds c with
           | Some value, Some seconds => value * seconds + uptime_scan None s'
           | _, _ => uptime_scan None s'
           end
  end.

Definition parseUptimeToSeconds (uptime : string) : N :=
  uptime_scan None uptime.

(** [disconnectHotspotUser]: the result, and what [console.error] was
    given. *)
Definition disconnectHotspotUser (m : MikroTikAPIManager) (userId : string)
    (env : environment)
  : MikroTikAPIManager * async unit * list js_error :=
  if Manager_isConnected m then
    let '(m', r) := Manager_disconnectActiveUser userId m env in
    match r with
    | Waiting => (m', Waiting, [])
    | Returned _ => (m', Returned tt, [])
    | Threw e => (m', Threw e, [e])
    end
  else
    let e := Error "MikroTik router not connected" in (m, Threw e, [e]).

(** * Vocabulary of the properties *)

(** ** Sessions and runs *)

(** The key [handleMessage] looks a reply up under: [response.tag || '']. *)
Definition reply_key (r : RouterOSResponse) : string := default "" (tag r).

(** The guard of [sendCommand]: a socket is set and [connected] is true. *)
Definition sendable (s : RouterOSAPI) : Prop :=
  is_Some (ws s) ∧ connected s = true.

Definition sendable_b (s : RouterOSAPI) : bool :=
  bool_decide (is_Some (ws s)) && connected s.

(** The events whose handler gets [sendCommand] to allocate a tag. *)
Definition allocates (s : RouterOSAPI) (e : event) : bool :=
  match e with
  | EvSendCommand _ => sendable_b s
  | EvOpen c => bool_decide (c < length (connects s))%nat && sendable_b s
  | _ => false
  end.

(** The part of a session the dispatcher works on. *)
Definition dispatcher (s : RouterOSAPI)
  : gmap string nat * gmap nat string * N * list (promise RouterOSResponse) :=
  (callbacks s, timers s, tagCounter s, promises s).

(** A run of replies. *)
Definition messages (rs : list RouterOSResponse) : list event :=
  (λ r, EvMessage (Some r)) <$> rs.

(** The counter stays below 2^53 during the run, so [++tagCounter] is exact. *)
Definition counter_exact (s : RouterOSAPI) (evs : list event) : Prop :=
  tagCounter s + N.of_nat (length evs) < 2 ^ 53.

(** ** Retirement of a tag *)

(** Tag [t] is retired by event [e] in session [s]: it is in the pending set
    before the step and not after it. *)
Definition retired_by (s : RouterOSAPI) (e : event) (t : string) : bool :=
  bool_decide (is_Some (callbacks s !! t))
  && bool_decide (callbacks (step s e) !! t = None).

(** The events of a run that retire [t], in order. *)
Fixpoint retirements (s : RouterOSAPI) (evs : list event) (t : string)
  : list event :=
  match evs with
  | [] => []
  | e :: evs' =>
      (if retired_by s e t then [e] else []) ++ retirements (step s e) evs' t
  end.

(** [e] is a done, trap or fatal reply bearing tag [t]. *)
Definition terminal_reply_for (t : string) (e : event) : Prop :=
  ∃ r, e = EvMessage (Some r) ∧ tag r = Some t ∧ is_terminal (type r) = true.

(** What holds of the command with tag number [n] and promise [p] from the
    moment [sendCommand] has registered it: the counter has passed [n], the
    promise exists, the only timer armed for the tag is the command's own,
    and while the tag is pending that timer is still armed. *)
Record tracked (n : N) (p : nat) (s : RouterOSAPI) : Prop := {
  tr_counter : n ≤ tagCounter s;
  tr_promise : (p < length (promises s))%nat;
  tr_timer : ∀ q, timers s !! q = Some (tag_of n) → q = p;
  tr_pending :
    is_Some (callbacks s !! tag_of n) → timers s !! p = Some (tag_of n)
}.

(** A session on which no login has succeeded: the flag is clear, nothing
    is pending, no command was ever resolved and no connect resolved
    [true]. *)
Record unauthenticated (s : RouterOSAPI) : Prop := {
  ua_connected : connected s = false;
  ua_callbacks : callbacks s = ∅;
  ua_promises : ∀ p r, promises s !! p ≠ Some (Fulfilled r);
  ua_connects : ∀ c, connects s !! c ≠ Some (Fulfilled true)
}.

(** ** What the specification expects, in its own words *)

(** The payloads an accumulating dispatcher would have collected for a tag:
    those of its data replies, in order of arrival. *)
Definition accumulated_payloads (tg : string) (evs : list event) : list jsval :=
  omap (λ e, match e with
             | EvMessage (Some r) =>
                 if decide (type r = TData ∧ tag r = Some tg)
                 then Some (data r) else None
             | _ => None
             end) evs.

(** Every command pending when [disconnect] is called is rejected by it. *)
Definition disconnect_rejects_pending (s : RouterOSAPI) : Prop :=
  ∀ tg p, callbacks s !! tg = Some p → promises s !! p = Some Pending →
          ∃ e, promises (disconnect s) !! p = Some (Rejected e).

(** The authentication state of the stateless session.  The class stores
    none; this is what its own [connect] tests: the router answers a GET of
    [/system/resource] under the stored base URL and credentials with an
    [ok] response. *)
Definition http_session_authenticated
    (world : HTTP.request → HTTP.fetch_result) (a : HTTP.RouterOSHTTPAPI)
  : bool :=
  match world {| HTTP.url := HTTP.baseUrl a +:+ "/system/resource";
                 HTTP.method := "GET";
                 HTTP.credentials := (HTTP.username a, HTTP.password a);
                 HTTP.body := None |} with
  | HTTP.FetchResponse true _ _ _ => true
  | _ => false
  end.

(** The authentication state of the session the manager has selected. *)
Definition active_session_authenticated
    (world : HTTP.request → HTTP.fetch_result) (m : MikroTikAPIManager)
  : bool :=
  match currentApi m with
  | Some ApiWs => connected (wsApi m)
  | Some ApiHttp => http_session_authenticated world (httpApi m)
  | None => false
  end.

(** ** The manager's connect, in stages *)

(** The WebSocket attempt of [Manager_connect]: the call and its await. *)
Definition ws_attempt (m : MikroTikAPIManager) (h u pw : string)
    (pt : option N) (env : environment)
  : RouterOSAPI * async bool * list event :=
  let '(w1, c) := connect (wsApi m) h u pw (num_or pt 8728) (ws_ctor env) in
  await_connect w1 c (ws_events env).

(** The object assigned to [this.config] (line 351). *)
Definition config_of (h u pw : string) (pt : option N) (useHttps : bool)
  : Config :=
  {| cfg_host := h; cfg_username := u; cfg_password := pw;
     cfg_port := num_or pt 8728; cfg_useHttps := useHttps |}.

(** The transport methods [connect] tried, in order. *)
Definition attempts (calls : list call) : list api_kind :=
  omap (λ c, match c with
             | CallWsConnect => Some ApiWs
             | CallHttpConnect => Some ApiHttp
             | _ => None
             end) calls.

(** ** Concrete sessions, replies and routers *)

(** A session whose socket is open and whose [connected] flag is set: the
    state in which [sendCommand] accepts commands, as the class is meant to
    be after a login that succeeded. *)
Definition session_open : RouterOSAPI :=
  set_connected true (set_ws (Some "ws://10.0.0.1:8729") RouterOSAPI_new).

Definition reply (ty : reply_type) (tg : string) (d : jsval)
    (msg : option string) : RouterOSResponse :=
  {| type := ty; tag := Some tg; data := d; message := msg |}.

(** One command in flight: tag1, promise 0. *)
Definition session_one_pending : RouterOSAPI :=
  (sendCommand session_open (print_cmd "/interface/print")).1.

(** A manager whose WebSocket session accepts commands. *)
Definition manager_open : MikroTikAPIManager :=
  mkManager session_open HTTP.new None None.

(** A router that answers REST requests carrying admin/secret with a system
    resource record and refuses every other credential. *)
Definition router (req : HTTP.request) : HTTP.fetch_result :=
  if String.eqb (HTTP.credentials req).1 "admin"
     && String.eqb (HTTP.credentials req).2 "secret"
  then HTTP.FetchResponse true 200 "OK" (inr (JObj [("version", JStr "7.12")]))
  else HTTP.FetchResponse false 401 "Unauthorized" (inr JNull).

(** The socket of connect [c] opens; REST is served by [router]. *)
Definition env_reachable (c : nat) : environment :=
  {| ws_ctor := None; ws_events := [EvOpen c]; fetch := λ _, router |}.

(** Nothing answers: the socket of connect [c] errors, [fetch] rejects. *)
Definition env_unreachable (c : nat) : environment :=
  {| ws_ctor := None; ws_events := [EvError c];
     fetch := λ _ _, HTTP.FetchFails (mkError "TypeError" "Failed to fetch") |}.

(** The socket of connect [c] opens, the login is answered by a trap. *)
Definition env_login_trap (c : nat) : environment :=
  {| ws_ctor := None;
     ws_events :=
       [EvOpen c;
        EvMessage (Some (reply TTrap "tag1" JUndefined
                           (Some "invalid user name or password (6)")))];
     fetch := λ _, router |}.

(** ** Invariants of the dispatcher *)

(** Every pending tag points to a promise that is still pending and whose
    timer is armed for that very tag. *)
Definition pending_ok (s : RouterOSAPI) : Prop :=
  ∀ t p, callbacks s !! t = Some p →
         promises s !! p = Some Pending ∧ timers s !! p = Some t.

(** Every pending tag was produced by the counter. *)
Definition tags_numbered (s : RouterOSAPI) : Prop :=
  ∀ t p, callbacks s !! t = Some p → ∃ k, t = tag_of k ∧ k ≤ tagCounter s.

(** Every armed timer belongs to a promise of the store and carries a tag
    produced by the counter. *)
Definition timers_numbered (s : RouterOSAPI) : Prop :=
  ∀ q t, timers s !! q = Some t →
         (q < length (promises s))%nat ∧ ∃ k, t = tag_of k ∧ k ≤ tagCounter s.

(** What [sendCommand] sets up for the command with tag number [n] and
    promise [p], beside [tracked]: no other tag is ever bound to the
    promise, and the timer of the promise is armed for no other tag. *)
Record owned (n : N) (p : nat) (s : RouterOSAPI) : Prop := {
  ow_tracked : tracked n p s;
  ow_callback : ∀ t, callbacks s !! t = Some p → t = tag_of n;
  ow_timer : ∀ t, timers s !! p = Some t → t = tag_of n
}.

(** While the promise of the command with tag number [n] is pending, its
    callback is registered and its timer is armed. *)
Definition in_flight (n : N) (p : nat) (s : RouterOSAPI) : Prop :=
  promises s !! p = Some Pending →
  callbacks s !! tag_of n = Some p ∧ timers s !! p = Some (tag_of n).

(** No login has succeeded and none is in flight. *)
Definition idle (s : RouterOSAPI) : Prop :=
  unauthenticated s ∧ logins s = [].

(** What the first event of a script that concerns connect [c] does to it
    on a session that has not authenticated: the socket opens, errors, or
    the 10 s timer fires. *)
Fixpoint connect_outcome (c : nat) (evs : list event) : async bool :=
  match evs with
  | [] => Waiting
  | e :: evs' =>
      match e with
      | EvOpen c' =>
          if decide (c' = c) then Returned false else connect_outcome c evs'
      | EvError c' =>
          if decide (c' = c) then Threw (Error "WebSocket connection failed")
          else connect_outcome c evs'
      | EvConnectTimeout c' =>
          if decide (c' = c) then Threw (Error "Connection timeout")
          else connect_outcome c evs'
      | _ => connect_outcome c evs'
      end
  end.

(** ** Requests of the HTTP client *)

(** [`${useHttps ? 'https' : 'http'}://${host}:${port}/rest`] *)
Definition base_url (h : string) (port : N) (useHttps : bool) : string :=
  (if useHttps then "https" else "http") +:+ "://" +:+ h
    +:+ ":" +:+ pretty port +:+ "/rest".

(** The GET of [/system/resource] that [connect] tests the router with. *)
Definition probe_request (h u pw : string) (port : N) (useHttps : bool)
  : HTTP.request :=
  {| HTTP.url := base_url h port useHttps +:+ "/system/resource";
     HTTP.method := "GET"; HTTP.credentials := (u, pw); HTTP.body := None |}.

(** The DELETE of [path] that a client sends. *)
Definition delete_request (a : HTTP.RouterOSHTTPAPI) (path : string)
  : HTTP.request :=
  {| HTTP.url := HTTP.baseUrl a +:+ path; HTTP.method := "DELETE";
     HTTP.credentials := (HTTP.username a, HTTP.password a);
     HTTP.body := None |}.

(** The POST that creates a hotspot user. *)
Definition add_user_request (a : HTTP.RouterOSHTTPAPI) (name pw : string)
    (profile : option string) : HTTP.request :=
  {| HTTP.url := HTTP.baseUrl a +:+ "/ip/hotspot/user"; HTTP.method := "POST";
     HTTP.credentials := (HTTP.username a, HTTP.password a);
     HTTP.body := Some (JObj [("name", JStr name); ("password", JStr pw);
                              ("profile", JStr (default "default" profile))]) |}.

(** The answer has an [ok] status and a body that parses as JSON. *)
Definition answered_ok (r : HTTP.fetch_result) : bool :=
  match r with
  | HTTP.FetchResponse true _ _ (inr _) => true
  | _ => false
  end.

(** The socket errors; the REST connect is answered by [router], every
    later request fails. *)
Definition env_probe_fails (c : nat) : environment :=
  {| ws_ctor := None; ws_events := [EvError c];
     fetch := λ n, match n with
                   | O => router
                   | _ => λ _, HTTP.FetchFails
                                 (mkError "TypeError" "Failed to fetch")
                   end |}.

(** The events that come from the socket and the timers, as opposed to the
    calls a user of the session makes. *)
Definition socket_event (e : event) : bool :=
  match e with
  | EvSendCommand _ | EvConnect _ _ _ _ _ | EvDisconnect => false
  | _ => true
  end.

(** From [s] to [s'] the session kept its socket and did not call [close]
    on it. *)
Definition kept_open (s s' : RouterOSAPI) : Prop :=
  ws s' = ws s ∧ ∃ more, io s' = io s ++ more ∧ WsCloseCall ∉ more.

(** ** Wire messages *)

(** Property lookup in the object [ws.send] is given. *)
Fixpoint obj_get (k : string) (o : list (string * string)) : option string :=
  match o with
  | [] => None
  | (k', v) :: o' => if String.eqb k k' then Some v else obj_get k o'
  end.

(** The value the last occurrence of [k] in an argument list gives it. *)
Fixpoint last_binding (k : string) (args : list (string * string))
  : option string :=
  match args with
  | [] => None
  | (k', v) :: args' =>
      match last_binding k args' with
      | Some v' => Some v'
      | None => if String.eqb k k' then Some v else None
      end
  end.

(** * Properties *)

(** ** The promise store *)

Section promise_store.
Context {A : Type}.
Implicit Types (ps : list (promise A)) (p q : nat) (v : promise A).

Lemma settle_length p v ps : length (settle p v ps) = length ps.
Proof.
  unfold settle. destruct (ps !! p) as [[]|]; auto using length_insert.
Qed.

Lemma settle_pending p v ps :
  ps !! p = Some Pending → settle p v ps !! p = Some v.
Proof.
  intros Hp. unfold settle. rewrite Hp.
  apply list_lookup_insert_eq. by eapply lookup_lt_Some.
Qed.

Lemma settle_other p q v ps : p ≠ q → settle p v ps !! q = ps !! q.
Proof.
  intros Hne. unfold settle.
  destruct (ps !! p) as [[]|]; auto using list_lookup_insert_ne.
Qed.

(** A settled promise keeps its value. *)
Lemma settle_settled p q v ps :
  ps !! q ≠ Some Pending → settle p v ps !! q = ps !! q.
Proof.
  intros Hq. destruct (decide (p = q)) as [->|]; [|by apply settle_other].
  unfold settle. destruct (ps !! q) as [[]|] eqn:E; [by destruct Hq | done..].
Qed.

Lemma await_new ps v : await (ps ++ [v]) (length ps) = await [v] 0.
Proof.
  unfold await.
  rewrite lookup_app_r, Nat.sub_diag by lia. done.
Qed.
End promise_store.

(** ** Field lemmas for the handlers *)

Lemma handleMessage_callbacks s r t :
  callbacks (handleMessage s (Some r)) !! t =
    if decide (t = reply_key r ∧ is_terminal (type r) = true)
    then None else callbacks s !! t.
Proof.
  unfold handleMessage. fold (reply_key r).
  destruct (callbacks s !! reply_key r) as [p|] eqn:Hk.
  - destruct (is_terminal (type r)) eqn:Hterm; simpl.
    + case_decide as Hd.
      * rewrite (proj1 Hd). apply lookup_delete_eq.
      * apply lookup_delete_ne. naive_solver.
    + case_decide as Hd; [by destruct Hd | done].
  - case_decide as Hd; [|done]. by rewrite (proj1 Hd).
Qed.

Lemma handleMessage_unknown s r :
  callbacks s !! reply_key r = None → handleMessage s (Some r) = s.
Proof. intros Hk. unfold handleMessage. fold (reply_key r). by rewrite Hk. Qed.

Lemma commandTimeout_callbacks s p t :
  callbacks (commandTimeout s p) !! t =
    if decide (timers s !! p = Some t) then None else callbacks s !! t.
Proof.
  unfold commandTimeout. destruct (timers s !! p) as [tg|] eqn:Ht.
  - simpl. case_bool_decide as Hc; simpl.
    + case_decide as Hd.
      * simplify_eq. apply lookup_delete_eq.
      * apply lookup_delete_ne. congruence.
    + case_decide as Hd; [|done]. simplify_eq.
      by apply eq_None_not_Some.
  - case_decide; done.
Qed.

(** A reply that arrives after the timer of its command fired finds no
    callback. *)
Lemma straggler_after_timeout s p r :
  timers s !! p = Some (reply_key r) →
  handleMessage (commandTimeout s p) (Some r) = commandTimeout s p.
Proof.
  intros Ht. apply handleMessage_unknown.
  rewrite commandTimeout_callbacks. by rewrite decide_True.
Qed.

(** So does a second reply after a terminal one. *)
Lemma straggler_after_terminal s r1 r2 :
  is_terminal (type r1) = true → reply_key r2 = reply_key r1 →
  handleMessage (handleMessage s (Some r1)) (Some r2) =
    handleMessage s (Some r1).
Proof.
  intros Hterm Hkey. apply handleMessage_unknown.
  rewrite handleMessage_callbacks, Hkey. by rewrite decide_True.
Qed.

(** ** Microtasks run to completion *)

Lemma resume_logins_none s : logins s = [] → resume_logins s = s.
Proof. intros Hl. unfold resume_logins. rewrite Hl. by destruct s; simplify_eq/=. Qed.

Lemma finish_login_promises s pc : promises (finish_login s pc) = promises s.
Proof. unfold finish_login. by destruct (login_k _). Qed.

Lemma foldl_finish_login_promises l s :
  promises (foldl finish_login s l) = promises s.
Proof.
  revert s. induction l as [|pc l IH]; intros s; simpl; [done|].
  by rewrite IH, finish_login_promises.
Qed.

(** The handlers still suspended after the microtasks have run are those
    whose promise is still pending. *)
Lemma foldl_finish_login_waiting l s :
  Forall (λ pc, login_k (await (promises s) pc.1) = Waiting) (logins s) →
  Forall (λ pc, login_k (await (promises s) pc.1) = Waiting)
         (logins (foldl finish_login s l)).
Proof.
  revert s. induction l as [|pc l IH]; intros s Hs; simpl; [done|].
  rewrite <- (finish_login_promises s pc). apply IH.
  rewrite finish_login_promises. unfold finish_login.
  destruct (login_k (await (promises s) pc.1)) eqn:Hpc; simpl; try done.
  apply Forall_app. split; [done|]. by apply Forall_singleton.
Qed.

Lemma foldl_finish_login_suspended l s :
  Forall (λ pc, login_k (await (promises s) pc.1) = Waiting) l →
  foldl finish_login s l = set_logins (logins s ++ l) s.
Proof.
  revert s. induction l as [|pc l IH]; intros s Hl; simpl.
  - rewrite app_nil_r. by destruct s.
  - apply Forall_cons in Hl as [Hpc Hl].
    assert (Hf : finish_login s pc = set_logins (logins s ++ [pc]) s).
    { unfold finish_login. by rewrite Hpc. }
    rewrite Hf, IH by done. simpl. by rewrite <- app_assoc.
Qed.

(** Running the microtasks twice is running them once: every state a step
    ends in is stable. *)
Lemma resume_logins_idemp s : resume_logins (resume_logins s) = resume_logins s.
Proof.
  pose proof (foldl_finish_login_waiting (logins s) (set_logins [] s)
                (Forall_nil_2 _)) as Hw.
  pose proof (foldl_finish_login_promises (logins s) (set_logins [] s)) as Hp.
  fold (resume_logins s) in Hw, Hp. simpl in Hw, Hp. rewrite <- Hp in Hw.
  generalize dependent (resume_logins s). intros s' Hw _.
  unfold resume_logins at 1.
  rewrite foldl_finish_login_suspended by done. by destruct s'.
Qed.

Lemma step_stable s e : resume_logins (step s e) = step s e.
Proof. apply resume_logins_idemp. Qed.

(** ** C4: replies without a pending command *)

Example session_one_pending_state :
  callbacks session_one_pending !! "tag1" = Some 0%nat
  ∧ promises session_one_pending = [Pending]
  ∧ timers session_one_pending !! 0%nat = Some "tag1"
  ∧ tagCounter session_one_pending = 1.
Proof. by vm_compute. Qed.

(** C4. A reply whose tag has no pending command (a tag never allocated, or
    one already retired by a terminal reply or by its timeout) is discarded:
    [handleMessage] returns the session unchanged, so no promise, pending or
    settled, nothing on the console and no other field is affected; and a
    run continues after it exactly as it would have without it. *)
Theorem C4_reply_without_pending_command_discarded
    (s : RouterOSAPI) (r : RouterOSResponse) :
  callbacks s !! default "" (tag r) = None →
  handleMessage s (Some r) = s
  ∧ (resume_logins s = s →
     ∀ evs, run s (EvMessage (Some r) :: evs) = run s evs).
Proof.
  intros Hk. pose proof (handleMessage_unknown s r Hk) as Hh.
  split; [done|]. intros Hst evs.
  change (run (step s (EvMessage (Some r))) evs = run s evs).
  unfold step, handle. by rewrite Hh, Hst.
Qed.

(** The scenario of the specification: the 30 s timer of tag1 fires with no
    reply received, the operation is rejected with the timeout error, and a
    reply for tag1 arriving afterwards changes nothing. *)
Lemma C4_witness :
  let s := step session_one_pending (EvCommandTimeout 0) in
  let late := reply TDone "tag1" (JStr "late") None in
  promises s = [Rejected (Error "Command timeout")]
  ∧ handleMessage s (Some late) = s
  ∧ run s [EvMessage (Some late)] = s.
Proof.
  pose proof (C4_reply_without_pending_command_discarded
                (step session_one_pending (EvCommandTimeout 0))
                (reply TDone "tag1" (JStr "late") None)) as H.
  destruct H as [Hsame Hrun]; [by vm_compute|].
  split; [by vm_compute|]. split; [exact Hsame|].
  apply Hrun. apply step_stable.
Defined.

(** ** C8: trap and fatal replies *)

Lemma handleMessage_known s r p :
  callbacks s !! reply_key r = Some p →
  handleMessage s (Some r) =
    let s1 := set_promises (callback p r (promises s)) s in
    if is_terminal (type r)
    then set_callbacks (delete (reply_key r) (callbacks s1)) s1 else s1.
Proof. intros Hk. unfold handleMessage. fold (reply_key r). by rewrite Hk. Qed.

Lemma str_or_given (m d : string) : m ≠ "" → str_or (Some m) d = m.
Proof.
  intros Hm. unfold str_or.
  destruct (String.eqb m "") eqn:E; [|done]. by apply String.eqb_eq in E.
Qed.

(** C8. When the reply for a pending command is a trap or a fatal, the
    command's promise is rejected with an Error whose message is the
    router's text when the reply carries a non-empty one (and "Command
    failed" otherwise), the tag leaves the pending set, and no other
    command is touched. *)
Theorem C8_trap_or_fatal_rejects_with_router_message
    (s : RouterOSAPI) (r : RouterOSResponse) (tg : string) (p : nat) :
  tag r = Some tg →
  type r = TTrap ∨ type r = TFatal →
  callbacks s !! tg = Some p →
  promises s !! p = Some Pending →
  let s' := handleMessage s (Some r) in
  promises s' !! p =
    Some (Rejected (Error (str_or (message r) "Command failed")))
  ∧ (∀ text, message r = Some text → text ≠ "" →
       promises s' !! p = Some (Rejected (Error text)))
  ∧ callbacks s' !! tg = None
  ∧ (∀ q, q ≠ p → promises s' !! q = promises s !! q)
  ∧ (∀ t, t ≠ tg → callbacks s' !! t = callbacks s !! t).
Proof.
  intros Htag Hty Hk Hp s'.
  assert (Hkey : reply_key r = tg) by (unfold reply_key; by rewrite Htag).
  assert (Hs' : promises s' =
                reject p (Error (str_or (message r) "Command failed"))
                  (promises s)).
  { subst s'. rewrite (handleMessage_known s r p) by (by rewrite Hkey).
    unfold callback. destruct Hty as [-> | ->]; done. }
  assert (Hrej : promises s' !! p =
                 Some (Rejected (Error (str_or (message r) "Command failed")))).
  { rewrite Hs'. by apply settle_pending. }
  split; [done|]. split.
  { intros text Hm Hne. rewrite Hrej, Hm. by rewrite str_or_given. }
  split.
  { subst s'. rewrite handleMessage_callbacks, Hkey.
    rewrite decide_True; [done|]. by destruct Hty as [-> | ->]. }
  split.
  { intros q Hq. rewrite Hs'. by apply settle_other. }
  intros t Ht. subst s'. rewrite handleMessage_callbacks, Hkey.
  rewrite decide_False; [done|]. by intros [? _].
Qed.

Lemma C8_witness :
  let r := reply TTrap "tag1" JUndefined (Some "no such item") in
  let s' := handleMessage session_one_pending (Some r) in
  promises s' !! 0%nat = Some (Rejected (Error "no such item"))
  ∧ callbacks s' !! "tag1" = None.
Proof.
  pose proof (C8_trap_or_fatal_rejects_with_router_message
                session_one_pending
                (reply TTrap "tag1" JUndefined (Some "no such item"))
                "tag1" 0%nat eq_refl (or_introl eq_refl)) as H.
  destruct H as (_ & Hmsg & Hcb & _); [by vm_compute | by vm_compute |].
  split; [by apply Hmsg | exact Hcb].
Defined.

(** ** C5: disconnect *)



(** ** C2: data replies and the done reply *)

Example tag_of_12 : tag_of 12 = "tag12".
Proof. by vm_compute. Qed.

(** The wire message of [addHotspotUser]: the arguments follow the command
    and the tag. *)
Example wire_message_add :
  wire_message (addHotspotUser_cmd "guest" "pw" None) "tag7"
  = [("command", "/ip/hotspot/user/add"); ("tag", "tag7");
     ("name", "guest"); ("password", "pw"); ("profile", "default")].
Proof. by vm_compute. Qed.

Lemma sendCommand_sendable s c :
  sendable s →
  sendCommand s c =
    (let n := js_incr (tagCounter s) in
     let p := length (promises s) in
     mkSession (ws s) (connected s) (host s) (username s) (password s)
       (port s) (<[tag_of n := p]> (callbacks s)) n
       (promises s ++ [Pending]) (<[p := tag_of n]> (timers s))
       (connects s) (logins s) (io s ++ [WsSend (wire_message c (tag_of n))]),
     length (promises s)).
Proof.
  intros [Hws Hc]. unfold sendCommand. destruct s; simpl in *.
  rewrite bool_decide_eq_true_2 by done. subst. reflexivity.
Qed.

Lemma sendCommand_not_sendable s c :
  ¬ sendable s →
  sendCommand s c =
    (set_promises
       (promises s ++ [Rejected (Error "Not connected to RouterOS")]) s,
     length (promises s)).
Proof.
  intros Hn. unfold sendCommand.
  destruct (bool_decide (is_Some (ws s))) eqn:Hws; [|done].
  destruct (connected s) eqn:Hc; [|done].
  destruct Hn. split; [by apply bool_decide_eq_true in Hws | done].
Qed.

(** A data reply for a pending tag changes nothing at all. *)
Lemma handleMessage_data s r p :
  type r = TData → callbacks s !! reply_key r = Some p →
  handleMessage s (Some r) = s.
Proof.
  intros Hty Hk. rewrite (handleMessage_known s r p Hk).
  unfold callback. rewrite Hty. by destruct s.
Qed.

Lemma step_data s r p :
  logins s = [] → type r = TData → callbacks s !! reply_key r = Some p →
  step s (EvMessage (Some r)) = s.
Proof.
  intros Hl Hty Hk. unfold step, handle.
  rewrite (handleMessage_data s r p) by done. by apply resume_logins_none.
Qed.

Lemma run_data s rs tg p :
  logins s = [] → callbacks s !! tg = Some p →
  Forall (λ r, type r = TData ∧ tag r = Some tg) rs →
  run s (messages rs) = s.
Proof.
  intros Hl Hk. induction 1 as [|r rs [Hty Htag] _ IH]; [done|].
  simpl. rewrite (step_data s r p); [done..|].
  unfold reply_key. by rewrite Htag.
Qed.

Lemma await_command_data s rs tg p q rest :
  logins s = [] → callbacks s !! tg = Some p →
  Forall (λ r, type r = TData ∧ tag r = Some tg) rs →
  await (promises s) q = Waiting →
  await_command s q (messages rs ++ rest) = await_command s q rest.
Proof.
  intros Hl Hk Hrs Hw. induction Hrs as [|r rs [Hty Htag] _ IH]; [done|].
  simpl. rewrite Hw. rewrite (step_data s r p); [done..|].
  unfold reply_key. by rewrite Htag.
Qed.

Lemma await_command_waiting s q e evs :
  await (promises s) q = Waiting →
  await_command s q (e :: evs) = await_command (step s e) q evs.
Proof. intros Hw. simpl. by rewrite Hw. Qed.

Lemma await_command_settled s q evs :
  await (promises s) q ≠ Waiting →
  await_command s q evs = (s, await (promises s) q, evs).
Proof. intros Hw. destruct evs; simpl; by destruct (await (promises s) q). Qed.




(** ** C10: the mutating operations *)

Lemma sendCommand_promise_id s c : (sendCommand s c).2 = length (promises s).
Proof. unfold sendCommand. by case_match. Qed.

(** What [await_command] hands back is the state of the promise in the
    session it hands back. *)
Lemma await_command_result s p evs :
  (await_command s p evs).1.2 = await (promises (await_command s p evs).1.1) p.
Proof.
  revert s. induction evs as [|e evs IH]; intros s; simpl;
    destruct (await (promises s) p) eqn:Hw; simpl; by rewrite ?Hw.
Qed.

Lemma commandTimeout_armed s p tg :
  timers s !! p = Some tg → callbacks s !! tg = Some p →
  promises s !! p = Some Pending →
  promises (commandTimeout s p) !! p
  = Some (Rejected (Error "Command timeout")).
Proof.
  intros Ht Hk Hp. unfold commandTimeout. rewrite Ht. simpl.
  rewrite bool_decide_eq_true_2 by (by rewrite Hk). simpl.
  by apply settle_pending.
Qed.

Lemma commandTimeout_logins s p : logins (commandTimeout s p) = logins s.
Proof.
  unfold commandTimeout. destruct (timers s !! p); [|done].
  by case_bool_decide.
Qed.

Lemma handleMessage_logins s d : logins (handleMessage s d) = logins s.
Proof.
  unfold handleMessage. destruct d as [r|]; [|done].
  destruct (callbacks s !! _); [|done]. by destruct (is_terminal _).
Qed.

(** C10. [addHotspotUser], [removeHotspotUser] and [disconnectActiveUser]
    never hand an exception to their caller, whatever the session, the
    arguments and the events: the result is [true] exactly when the
    command's promise was resolved and [false] exactly when it was rejected.
    A session that is not connected gives [false]; a done reply gives
    [true]; a trap or fatal reply and the 30 s timeout give [false]; in each
    case the error and its message are dropped. *)
Theorem C10_mutating_operations_return_bool
    (name pw : string) (profile : option string) (id : string)
    (op : RouterOSAPI → list event → RouterOSAPI * async bool * list event)
    (s : RouterOSAPI) (evs : list event) :
  op ∈ [addHotspotUser name pw profile; removeHotspotUser id;
        disconnectActiveUser id] →
  let '(s', result, _) := op s evs in
  let p := length (promises s) in
  let tg := tag_of (js_incr (tagCounter s)) in
  (∀ e, result ≠ Threw e)
  ∧ (result = Returned true ↔ ∃ r, promises s' !! p = Some (Fulfilled r))
  ∧ (result = Returned false ↔ ∃ e, promises s' !! p = Some (Rejected e))
  ∧ (¬ sendable s → result = Returned false)
  ∧ (sendable s → logins s = [] → ∀ r rest,
       evs = EvMessage (Some r) :: rest → tag r = Some tg →
       type r ≠ TData →
       result = Returned (bool_decide (type r = TDone)))
  ∧ (sendable s → logins s = [] → ∀ rest,
       evs = EvCommandTimeout p :: rest → result = Returned false).
Proof.
  intros Hop.
  assert (∃ cmd, op = run_op cmd bool_k) as [cmd ->].
  { rewrite !elem_of_cons in Hop.
    destruct Hop as [-> | [-> | [-> | Hnil]]]; [by eexists..|].
    by apply elem_of_nil in Hnil. }
  unfold run_op.
  pose proof (sendCommand_promise_id s cmd) as Hid.
  destruct (sendCommand s cmd) as [s1 p] eqn:Hsend. simpl in Hid. subst p.
  set (p := length (promises s)).
  pose proof (await_command_result s1 p evs) as Hres.
  destruct (await_command s1 p evs) as [[s2 r] rest] eqn:Haw.
  simpl in Hres. cbv beta iota zeta. fold p.
  set (tg := tag_of (js_incr (tagCounter s))).
  assert (Hcases : bool_k r = match promises s2 !! p with
                              | Some (Fulfilled _) => Returned true
                              | Some (Rejected _) => Returned false
                              | _ => Waiting
                              end).
  { rewrite Hres. unfold await. by destruct (promises s2 !! p) as [[]|]. }
  split; [|split; [|split; [|split; [|split]]]].
  - intros e. rewrite Hcases. by destruct (promises s2 !! p) as [[]|].
  - rewrite Hcases. destruct (promises s2 !! p) as [[]|]; split;
      first [done | by intros [? ?] | by eexists].
  - rewrite Hcases. destruct (promises s2 !! p) as [[]|]; split;
      first [done | by intros [? ?] | by eexists].
  - intros Hns. rewrite (sendCommand_not_sendable s cmd Hns) in Hsend.
    injection Hsend as <-. subst p.
    rewrite await_command_settled in Haw.
    + injection Haw as <- <- <-. simpl. by rewrite await_new.
    + simpl. by rewrite await_new.
  - intros Hs Hl r0 rest0 -> Htag Hty.
    rewrite (sendCommand_sendable s cmd Hs) in Hsend. cbv zeta in Hsend.
    injection Hsend as <-. fold p tg in Haw.
    set (s1 := mkSession _ _ _ _ _ _ _ _ _ _ _ _ _) in *.
    assert (Hp1 : promises s1 !! p = Some Pending).
    { simpl. rewrite lookup_app_r by (subst p; lia).
      by replace (p - length (promises s))%nat with 0%nat by (subst p; lia). }
    assert (Hk : callbacks s1 !! reply_key r0 = Some p).
    { unfold reply_key. rewrite Htag. apply lookup_insert_eq. }
    rewrite await_command_waiting in Haw by (unfold await; by rewrite Hp1).
    assert (Hst : promises (step s1 (EvMessage (Some r0))) !! p
                  = Some (if bool_decide (type r0 = TDone) then Fulfilled r0
                          else Rejected (Error (str_or (message r0)
                                                  "Command failed")))).
    { unfold step, handle. rewrite (handleMessage_known s1 r0 p Hk).
      rewrite resume_logins_none
        by (simpl; destruct (is_terminal (type r0)); done).
      unfold callback.
      destruct (type r0) eqn:Ety; simpl; try done; by apply settle_pending. }
    rewrite await_command_settled in Haw
      by (unfold await; rewrite Hst; by case_bool_decide).
    injection Haw as <- <- <-. unfold await. rewrite Hst.
    by case_bool_decide.
  - intros Hs Hl rest0 ->.
    rewrite (sendCommand_sendable s cmd Hs) in Hsend. cbv zeta in Hsend.
    injection Hsend as <-. fold p tg in Haw.
    set (s1 := mkSession _ _ _ _ _ _ _ _ _ _ _ _ _) in *.
    assert (Hp1 : promises s1 !! p = Some Pending).
    { simpl. rewrite lookup_app_r by (subst p; lia).
      by replace (p - length (promises s))%nat with 0%nat by (subst p; lia). }
    rewrite await_command_waiting in Haw by (unfold await; by rewrite Hp1).
    assert (Hst : promises (step s1 (EvCommandTimeout p)) !! p
                  = Some (Rejected (Error "Command timeout"))).
    { unfold step, handle.
      rewrite resume_logins_none by (by rewrite commandTimeout_logins).
      apply (commandTimeout_armed s1 p tg); [apply lookup_insert_eq..|done]. }
    rewrite await_command_settled in Haw
      by (unfold await; by rewrite Hst).
    injection Haw as <- <- <-. unfold await. by rewrite Hst.
Qed.

(** The five outcomes of a command, on [addHotspotUser]. *)
Example addHotspotUser_not_connected :
  (addHotspotUser "guest" "pw" None RouterOSAPI_new []).1.2 = Returned false.
Proof. by vm_compute. Qed.

Example addHotspotUser_done :
  (addHotspotUser "guest" "pw" None session_open
     [EvMessage (Some (reply TDone "tag1" JUndefined None))]).1.2
  = Returned true.
Proof. by vm_compute. Qed.

Example addHotspotUser_trap :
  (addHotspotUser "guest" "pw" None session_open
     [EvMessage (Some (reply TTrap "tag1" JUndefined
                         (Some "failure: already have user with this name")))])
    .1.2 = Returned false.
Proof. by vm_compute. Qed.

Example addHotspotUser_fatal :
  (addHotspotUser "guest" "pw" None session_open
     [EvMessage (Some (reply TFatal "tag1" JUndefined None))]).1.2
  = Returned false.
Proof. by vm_compute. Qed.

Example addHotspotUser_timeout :
  (addHotspotUser "guest" "pw" None session_open [EvCommandTimeout 0]).1.2
  = Returned false.
Proof. by vm_compute. Qed.

(** While no reply has come and the timer has not fired, the caller is
    still waiting. *)
Example addHotspotUser_waiting :
  (addHotspotUser "guest" "pw" None session_open
     [EvMessage (Some (reply TData "tag1" JNull None))]).1.2 = Waiting.
Proof. by vm_compute. Qed.

Lemma C10_witness :
  (removeHotspotUser "*1" session_open
     [EvMessage (Some (reply TTrap "tag1" JUndefined (Some "no such item")))])
    .1.2 = Returned false.
Proof.
  pose proof (C10_mutating_operations_return_bool "u" "p" None "*1"
                (removeHotspotUser "*1") session_open
                [EvMessage
                   (Some (reply TTrap "tag1" JUndefined (Some "no such item")))])
    as H.
  destruct (removeHotspotUser "*1" session_open _) as [[s' result] rest].
  destruct H as (_ & _ & _ & _ & Hreply & _).
  - rewrite !elem_of_cons. right. by left.
  - simpl. apply (Hreply (conj (mk_is_Some _ _ eq_refl) eq_refl) eq_refl
                    _ [] eq_refl eq_refl). done.
Defined.

(** ** The connection manager *)

Lemma Manager_connect_unfold m h u pw pt useHttps env :
  Manager_connect m h u pw pt useHttps env =
    let '(w2, wsConnected, rest) := ws_attempt m h u pw pt env in
    let cfg := config_of h u pw pt useHttps in
    let m1 := mkManager w2 (httpApi m) (currentApi m) (Some cfg) in
    match wsConnected with
    | Waiting => (m1, Waiting, [CallWsConnect])
    | Returned true =>
        let '(w3, systemInfo, _) := getSystemResource w2 rest in
        let m2 := mkManager w3 (httpApi m) (Some ApiWs) (Some cfg) in
        let calls := [CallWsConnect; CallWsGetSystemResource] in
        match systemInfo with
        | Waiting => (m2, Waiting, calls)
        | Returned info =>
            (m2, Returned {| success := true; method := Some "WebSocket API";
                             error := None; systemInfo := info |}, calls)
        | Threw wsError =>
            connect_http m2 h u pw pt useHttps env
              (calls ++ [ConsoleWarn "WebSocket API connection failed:" wsError])
        end
    | Returned false => connect_http m1 h u pw pt useHttps env [CallWsConnect]
    | Threw wsError =>
        connect_http m1 h u pw pt useHttps env
          [CallWsConnect; ConsoleWarn "WebSocket API connection failed:" wsError]
    end.
Proof.
  unfold Manager_connect, ws_attempt.
  destruct (connect _ _ _ _ _ _) as [w1 c].
  by destruct (await_connect _ _ _) as [[w2 r] rest].
Qed.

(** The HTTP fallback appends to the calls made before it, starting with
    the HTTP connect. *)
Lemma connect_http_calls m h u pw pt useHttps env before :
  ∃ more, (connect_http m h u pw pt useHttps env before).2
          = before ++ CallHttpConnect :: more.
Proof.
  unfold connect_http.
  destruct (HTTP.connect _ _ _ _ _ _ _) as [a1 [|[]|e]]; simpl.
  - by eexists.
  - destruct (HTTP.getSystemResource _ _); simpl;
      rewrite <- ?app_assoc; by eexists.
  - by eexists.
  - rewrite <- app_assoc. by eexists.
Qed.

(** Whatever fails, [connect] never gets to build a failure report: the
    only rejection that leaves it is the ReferenceError of the second
    [catch], and every object it returns has [success] set. *)
Lemma connect_http_failure m h u pw pt useHttps env before :
  let result := (connect_http m h u pw pt useHttps env before).1.2 in
  (∀ e, result = Threw e → e = ReferenceError "wsError is not defined")
  ∧ (∀ r, result = Returned r → success r = true).
Proof.
  unfold connect_http, HTTP.connect.
  destruct (fetch env 0%nat _) as [e0|[] status text json]; simpl.
  - split; intros ? [=]; done.
  - destruct (HTTP.getSystemResource _ _); simpl;
      split; intros ? [=]; subst; done.
  - split; intros ? [=]; done.
Qed.

Lemma Manager_connect_failure m h u pw pt useHttps env :
  let result := (Manager_connect m h u pw pt useHttps env).1.2 in
  (∀ e, result = Threw e → e = ReferenceError "wsError is not defined")
  ∧ (∀ r, result = Returned r → success r = true).
Proof.
  rewrite Manager_connect_unfold.
  destruct (ws_attempt _ _ _ _ _ _) as [[w2 [|[]|e]] rest]; cbv zeta.
  - split; intros ? [=].
  - destruct (getSystemResource w2 rest) as [[w3 [|info|e]] rest'].
    + split; intros ? [=].
    + split; intros ? [=]; subst; done.
    + apply connect_http_failure.
  - apply connect_http_failure.
  - apply connect_http_failure.
Qed.

(** ** C7: every method fails *)

(** C7 (the code at the failing input). Connecting to a host that answers
    on no method: the socket errors, [fetch] rejects, both errors go to the
    console, and [connect] itself is rejected with the ReferenceError raised
    while it builds the aggregated report, so the caller receives neither
    method's error. *)
Theorem C7_unreachable_host_rejects_with_reference_error :
  let '(m', result, calls) :=
    Manager_connect MikroTikAPIManager_new "10.0.0.1" "admin" "secret"
      (Some 8728) false (env_unreachable 0) in
  result = Threw (ReferenceError "wsError is not defined")
  ∧ calls =
      [CallWsConnect;
       ConsoleWarn "WebSocket API connection failed:"
         (Error "WebSocket connection failed");
       CallHttpConnect;
       ConsoleWarn "HTTP API connection failed:"
         (Error "Connection failed: TypeError: Failed to fetch")]
  ∧ currentApi m' = None.
Proof. by vm_compute. Qed.

(** ** C9: isConnected *)

(** A first connect with the right password selects HTTP; a second one with
    a wrong password is refused on both methods.  The manager still names
    HTTP as the current method, the HTTP client now holds the refused
    credentials, and [isConnected] answers [true]. *)
Lemma C9_counterexample :
  let '(m1, r1, _) :=
    Manager_connect MikroTikAPIManager_new "10.0.0.1" "admin" "secret"
      (Some 80) false (env_reachable 0) in
  let '(m2, r2, _) :=
    Manager_connect m1 "10.0.0.1" "admin" "wrong" (Some 80) false
      (env_reachable 1) in
  (∃ r, r1 = Returned r ∧ success r = true)
  ∧ r2 = Threw (ReferenceError "wsError is not defined")
  ∧ currentApi m2 = Some ApiHttp
  ∧ HTTP.password (httpApi m2) = "wrong"
  ∧ active_session_authenticated router m2 = false
  ∧ Manager_isConnected m2 = true
  ∧ Manager_isConnected m2 ≠ active_session_authenticated router m2.
Proof. vm_compute. repeat split; try done. by eexists. Qed.

Lemma connect_http_currentApi m0 h u pw pt useHttps env before :
  let m' := (connect_http m0 h u pw pt useHttps env before).1.1 in
  currentApi m' = Some ApiHttp ∨ currentApi m' = currentApi m0.
Proof.
  unfold connect_http.
  destruct (HTTP.connect _ _ _ _ _ _ _) as [a1 [|[]|e]]; simpl; auto.
  destruct (HTTP.getSystemResource _ _); simpl; auto.
Qed.

(** C9 (amended). [isConnected] answers with the WebSocket session's
    [connected] flag when the current method is ws, with [true] whenever the
    current method is http (no state of the HTTP client is consulted), and
    with [false] when no method is selected.  Once http is the current
    method, a later [connect] whose WebSocket attempt does not authenticate
    leaves the answer [true], whatever the HTTP attempt gives. *)
Theorem C9_isConnected_by_method (m : MikroTikAPIManager) :
  Manager_isConnected m =
    match currentApi m with
    | Some ApiWs => connected (wsApi m)
    | Some ApiHttp => true
    | None => false
    end
  ∧ (Manager_isConnected m = true ↔
       (currentApi m = Some ApiWs ∧ isConnected (wsApi m) = true)
       ∨ currentApi m = Some ApiHttp)
  ∧ (∀ h u pw pt useHttps env,
       currentApi m = Some ApiHttp →
       (ws_attempt m h u pw pt env).1.2 ≠ Returned true →
       Manager_isConnected (Manager_connect m h u pw pt useHttps env).1.1
       = true).
Proof.
  split; [|split].
  - unfold Manager_isConnected, isConnected. by destruct (currentApi m) as [[]|].
  - unfold Manager_isConnected, isConnected.
    destruct (currentApi m) as [[]|]; intuition congruence.
  - intros h u pw pt useHttps env Hcur Hws.
    rewrite Manager_connect_unfold.
    destruct (ws_attempt m h u pw pt env) as [[w2 [|[]|e]] rest];
      simpl in Hws; cbv zeta; [|done| |].
    + unfold Manager_isConnected. simpl. by rewrite Hcur.
    + pose proof (connect_http_currentApi
                    (mkManager w2 (httpApi m) (currentApi m)
                       (Some (config_of h u pw pt useHttps)))
                    h u pw pt useHttps env [CallWsConnect]) as H.
      unfold Manager_isConnected. simpl in H.
      destruct H as [-> | ->]; [done|by rewrite Hcur].
    + pose proof (connect_http_currentApi
                    (mkManager w2 (httpApi m) (currentApi m)
                       (Some (config_of h u pw pt useHttps)))
                    h u pw pt useHttps env
                    [CallWsConnect;
                     ConsoleWarn "WebSocket API connection failed:" e]) as H.
      unfold Manager_isConnected. simpl in H.
      destruct H as [-> | ->]; [done|by rewrite Hcur].
Qed.

(** The manager that selected HTTP with the right password is asked to
    connect with a wrong one. *)
Lemma C9_witness :
  let m1 := (Manager_connect MikroTikAPIManager_new "10.0.0.1" "admin"
               "secret" (Some 80) false (env_reachable 0)).1.1 in
  Manager_isConnected
    (Manager_connect m1 "10.0.0.1" "admin" "wrong" (Some 80) false
       (env_reachable 1)).1.1 = true.
Proof.
  apply (C9_isConnected_by_method
           (Manager_connect MikroTikAPIManager_new "10.0.0.1" "admin"
              "secret" (Some 80) false (env_reachable 0)).1.1).
  - by vm_compute.
  - by vm_compute.
Defined.

(** ** C3: a failed login *)

(** A reachable router and a wrong password.  From a fresh manager the
    socket opens and the WebSocket connect resolves [false]; on a session
    that does send the login, the router's trap rejects the login command
    and the connect resolves [false] as well.  Both times the manager goes
    on to the HTTP method, and what the caller gets is the outcome of that
    attempt, not an authentication failure of the first one. *)
Lemma C3_counterexample :
  (let '(m', result, calls) :=
     Manager_connect MikroTikAPIManager_new "10.0.0.1" "admin" "wrong"
       (Some 8728) false (env_reachable 0) in
   io (wsApi m') = [WsNew "ws://10.0.0.1:8729"]
   ∧ connects (wsApi m') = [Fulfilled false]
   ∧ calls !! 1%nat = Some CallHttpConnect
   ∧ result = Threw (ReferenceError "wsError is not defined"))
  ∧
  (let '(m', result, calls) :=
     Manager_connect manager_open "10.0.0.1" "admin" "wrong"
       (Some 8728) false (env_login_trap 0) in
   promises (wsApi m')
     = [Rejected (Error "invalid user name or password (6)")]
   ∧ connects (wsApi m') = [Fulfilled false]
   ∧ calls !! 1%nat = Some CallHttpConnect
   ∧ result = Threw (ReferenceError "wsError is not defined")).
Proof. by vm_compute. Qed.

(** C3 (amended). When the WebSocket connect resolves [false] (the socket
    opened and the login did not succeed, whether by a trap or otherwise),
    the manager raises no authentication error of its own: it calls the HTTP
    method next, and its state, result and calls are those of that HTTP
    attempt. *)
Theorem C3_failed_login_falls_back_to_http
    (m : MikroTikAPIManager) (h u pw : string) (pt : option N)
    (useHttps : bool) (env : environment)
    (w2 : RouterOSAPI) (rest : list event) :
  ws_attempt m h u pw pt env = (w2, Returned false, rest) →
  let m1 := mkManager w2 (httpApi m) (currentApi m)
              (Some (config_of h u pw pt useHttps)) in
  Manager_connect m h u pw pt useHttps env
    = connect_http m1 h u pw pt useHttps env [CallWsConnect]
  ∧ ∃ more, (Manager_connect m h u pw pt useHttps env).2
            = CallWsConnect :: CallHttpConnect :: more.
Proof.
  intros Hws m1. rewrite Manager_connect_unfold, Hws. cbv zeta. fold m1.
  split; [done|].
  destruct (connect_http_calls m1 h u pw pt useHttps env [CallWsConnect])
    as [more Hmore].
  exists more. by rewrite Hmore.
Qed.

Lemma C3_witness :
  ∃ more,
    (Manager_connect manager_open "10.0.0.1" "admin" "wrong" (Some 8728)
       false (env_login_trap 0)).2
    = CallWsConnect :: CallHttpConnect :: more.
Proof.
  refine (proj2 (C3_failed_login_falls_back_to_http manager_open
                   "10.0.0.1" "admin" "wrong" (Some 8728) false
                   (env_login_trap 0) _ _ _)).
  by vm_compute.
Defined.

(** ** C6: priority order and the probe *)

Lemma attempts_app (a b : list call) :
  attempts (a ++ b) = attempts a ++ attempts b.
Proof. apply omap_app. Qed.

(** [HTTP.connect] answers [true] or throws; it never answers [false]. *)
Lemma HTTP_connect_not_false a h u pw pt useHttps f :
  (HTTP.connect a h u pw pt useHttps f).2 ≠ Returned false.
Proof.
  unfold HTTP.connect. destruct (f _) as [e0|[] ? ? ?]; by simpl.
Qed.

(** The HTTP fallback, case by case. *)
Lemma connect_http_spec m0 h u pw pt useHttps env before :
  let '(m', result, calls) :=
    connect_http m0 h u pw pt useHttps env before in
  (∃ tail, calls = before ++ CallHttpConnect :: tail ∧ attempts tail = [])
  ∧ (∀ a1 info,
       HTTP.connect (httpApi m0) h u pw (num_or pt 80) useHttps
         (fetch env 0%nat) = (a1, Returned true) →
       HTTP.getSystemResource a1 (fetch env 1%nat) = Returned info →
       result = Returned {| success := true; method := Some "HTTP REST API";
                            error := None; systemInfo := info |}
       ∧ calls = before ++ [CallHttpConnect; CallHttpGetSystemResource]
       ∧ currentApi m' = Some ApiHttp)
  ∧ (∀ r, result = Returned r →
       success r = true ∧ method r = Some "HTTP REST API"
       ∧ currentApi m' = Some ApiHttp
       ∧ last calls = Some CallHttpGetSystemResource).
Proof.
  unfold connect_http.
  pose proof (HTTP_connect_not_false (httpApi m0) h u pw (num_or pt 80)
                useHttps (fetch env 0%nat)) as Hnf.
  destruct (HTTP.connect _ _ _ _ _ _ _) as [a1 conn]. simpl in Hnf.
  destruct conn as [|[]|e]; [| |done|].
  - split; [by exists []|]. split; [by intros ? ? [=]|]. by intros ? [=].
  - destruct (HTTP.getSystemResource a1 (fetch env 1%nat))
      as [|info|e] eqn:Hprobe.
    + rewrite <- app_assoc. split; [by eexists|].
      split; [|by intros ? [=]].
      intros ? ? [= <-]. by rewrite Hprobe.
    + rewrite <- app_assoc. split; [by eexists|]. split.
      * intros ? ? [= <-]. rewrite Hprobe. by intros [= <-].
      * intros r [= <-]. repeat split. by rewrite app_assoc, last_snoc.
    + rewrite <- !app_assoc. split; [by eexists|].
      split; [|by intros ? [=]].
      intros ? ? [= <-]. by rewrite Hprobe.
  - rewrite <- app_assoc. split; [by eexists|].
    split; [by intros ? ? [=]|]. by intros ? [=].
Qed.



(** ** Which fields a step touches *)

Lemma sendable_b_true s : sendable_b s = true ↔ sendable s.
Proof.
  unfold sendable_b, sendable. rewrite andb_true_iff, bool_decide_eq_true.
  done.
Qed.

Lemma sendable_b_false s : sendable_b s = false ↔ ¬ sendable s.
Proof.
  rewrite <- sendable_b_true. destruct (sendable_b s); split; congruence.
Qed.

Lemma finish_login_dispatcher s pc :
  dispatcher (finish_login s pc) = dispatcher s.
Proof. unfold finish_login. by destruct (login_k _). Qed.

Lemma resume_logins_dispatcher s : dispatcher (resume_logins s) = dispatcher s.
Proof.
  unfold resume_logins.
  assert (H : ∀ l s0, dispatcher (foldl finish_login s0 l) = dispatcher s0).
  { induction l as [|pc l IH]; intros s0; simpl; [done|].
    by rewrite IH, finish_login_dispatcher. }
  by rewrite H.
Qed.

Lemma step_dispatcher s e : dispatcher (step s e) = dispatcher (handle s e).
Proof. apply resume_logins_dispatcher. Qed.

Lemma callbacks_dispatcher s : callbacks s = (dispatcher s).1.1.1.
Proof. done. Qed.
Lemma timers_dispatcher s : timers s = (dispatcher s).1.1.2.
Proof. done. Qed.
Lemma tagCounter_dispatcher s : tagCounter s = (dispatcher s).1.2.
Proof. done. Qed.
Lemma promises_dispatcher s : promises s = (dispatcher s).2.
Proof. done. Qed.

(** [sendCommand] on the dispatcher. *)
Lemma sendCommand_dispatcher s c :
  dispatcher (sendCommand s c).1 =
    if sendable_b s
    then (<[tag_of (js_incr (tagCounter s)) := length (promises s)]>
            (callbacks s),
          <[length (promises s) := tag_of (js_incr (tagCounter s))]>
            (timers s),
          js_incr (tagCounter s),
          promises s ++ [Pending])
    else (callbacks s, timers s, tagCounter s,
          promises s ++ [Rejected (Error "Not connected to RouterOS")]).
Proof.
  destruct (sendable_b s) eqn:Hs.
  - apply sendable_b_true in Hs. by rewrite (sendCommand_sendable s c Hs).
  - apply sendable_b_false in Hs. by rewrite (sendCommand_not_sendable s c Hs).
Qed.

Lemma onopen_dispatcher s c :
  dispatcher (onopen s c) = dispatcher (sendCommand s (loginCommand s)).1.
Proof. unfold onopen. by destruct (sendCommand s _). Qed.

Lemma handle_dispatcher_other s e :
  match e with
  | EvError _ | EvClose | EvConnectTimeout _ | EvConnect _ _ _ _ _ => True
  | _ => False
  end →
  dispatcher (handle s e) = dispatcher s.
Proof.
  destruct e as [c|c|[r|]|  |c|q|cmd|h u pw pt ctor| ]; try done; intros _;
    simpl.
  - by destruct (connected s).
  - by destruct ctor.
Qed.

(** The events whose handler calls [sendCommand]. *)
Lemma handle_dispatcher_send s e :
  match e with EvOpen _ | EvSendCommand _ => True | _ => False end →
  dispatcher (handle s e) =
    if allocates s e
    then (<[tag_of (js_incr (tagCounter s)) := length (promises s)]>
            (callbacks s),
          <[length (promises s) := tag_of (js_incr (tagCounter s))]>
            (timers s),
          js_incr (tagCounter s),
          promises s ++ [Pending])
    else if match e with
            | EvOpen c => bool_decide (c < length (connects s))%nat
            | _ => true
            end
    then (callbacks s, timers s, tagCounter s,
          promises s ++ [Rejected (Error "Not connected to RouterOS")])
    else dispatcher s.
Proof.
  destruct e as [c|c|[r|]|  |c|q|cmd|h u pw pt ctor| ]; try done; intros _;
    simpl.
  - case_bool_decide; simpl; [|done].
    rewrite onopen_dispatcher, sendCommand_dispatcher.
    by destruct (sendable_b s).
  - rewrite sendCommand_dispatcher. by destruct (sendable_b s).
Qed.

(** The pending set after one step. *)
Lemma step_callbacks s e t :
  callbacks (step s e) !! t =
    match e with
    | EvMessage (Some r) =>
        if decide (t = reply_key r ∧ is_terminal (type r) = true)
        then None else callbacks s !! t
    | EvCommandTimeout q =>
        if decide (timers s !! q = Some t) then None else callbacks s !! t
    | EvDisconnect => None
    | _ =>
        if decide (allocates s e = true ∧ t = tag_of (js_incr (tagCounter s)))
        then Some (length (promises s)) else callbacks s !! t
    end.
Proof.
  rewrite (callbacks_dispatcher (step s e)), step_dispatcher.
  destruct e as [c|c|[r|]|  |c|q|cmd|h u pw pt ctor| ];
    try (match goal with
         | |- context [handle s ?e] => rewrite (handle_dispatcher_other s e I)
         end; simpl;
         first [done | case_decide as H; [by destruct H|done]]);
    try (match goal with
         | |- context [handle s ?e] => rewrite (handle_dispatcher_send s e I)
         end;
         destruct (allocates s _) eqn:Ha; simpl;
         [ rewrite lookup_insert; repeat case_decide; intuition congruence
         | first [ done | by case_bool_decide
                 | case_decide as H; [by destruct H|];
                   first [done | by case_bool_decide] ] ]).
  - apply handleMessage_callbacks.
  - done.
  - apply commandTimeout_callbacks.
  - simpl. unfold disconnect. by destruct (ws s).
Qed.

Lemma callback_length p r ps : length (callback p r ps) = length ps.
Proof.
  unfold callback, resolve, reject. destruct (type r); by rewrite ?settle_length.
Qed.

Lemma handleMessage_rest s d :
  timers (handleMessage s d) = timers s
  ∧ tagCounter (handleMessage s d) = tagCounter s
  ∧ length (promises (handleMessage s d)) = length (promises s).
Proof.
  unfold handleMessage. destruct d as [r|]; [|done].
  destruct (callbacks s !! _); [|done].
  destruct (is_terminal _); simpl; by rewrite callback_length.
Qed.

Lemma commandTimeout_rest s p :
  timers (commandTimeout s p) = delete p (timers s)
  ∧ tagCounter (commandTimeout s p) = tagCounter s
  ∧ length (promises (commandTimeout s p)) = length (promises s).
Proof.
  unfold commandTimeout. destruct (timers s !! p) eqn:Ht.
  - case_bool_decide; simpl; unfold reject; by rewrite ?settle_length.
  - by rewrite delete_id.
Qed.

Lemma disconnect_rest s :
  timers (disconnect s) = timers s
  ∧ tagCounter (disconnect s) = tagCounter s
  ∧ promises (disconnect s) = promises s.
Proof. unfold disconnect. by destruct (ws s). Qed.

Ltac handle_dispatcher_cases s :=
  first
    [ match goal with
      | |- context [handle s ?e] => rewrite (handle_dispatcher_other s e I)
      end
    | match goal with
      | |- context [handle s ?e] => rewrite (handle_dispatcher_send s e I)
      end ].

(** The armed timers after one step. *)
Lemma step_timers s e q :
  timers (step s e) !! q =
    match e with
    | EvCommandTimeout q' => if decide (q = q') then None else timers s !! q
    | _ =>
        if decide (allocates s e = true ∧ q = length (promises s))
        then Some (tag_of (js_incr (tagCounter s))) else timers s !! q
    end.
Proof.
  rewrite (timers_dispatcher (step s e)), step_dispatcher.
  destruct e as [c|c|d|  |c|q'|cmd|h u pw pt ctor| ];
    try (handle_dispatcher_cases s; try destruct (allocates s _) eqn:Ha;
         simpl;
         first [ done | by case_bool_decide
               | rewrite lookup_insert; repeat case_decide;
                 intuition congruence
               | case_decide as H; [by destruct H|];
                 first [done | by case_bool_decide] ]).
  - simpl. by rewrite (proj1 (handleMessage_rest s d)).
  - simpl. rewrite (proj1 (commandTimeout_rest s q')).
    case_decide as H.
    + subst. apply lookup_delete_eq.
    + by apply lookup_delete_ne.
  - change (timers (disconnect s) !! q = timers s !! q).
    by rewrite (proj1 (disconnect_rest s)).
Qed.

(** The counter after one step. *)
Lemma step_tagCounter s e :
  tagCounter (step s e) =
    if allocates s e then js_incr (tagCounter s) else tagCounter s.
Proof.
  rewrite (tagCounter_dispatcher (step s e)), step_dispatcher.
  destruct e as [c|c|d|  |c|q'|cmd|h u pw pt ctor| ];
    try (handle_dispatcher_cases s; try destruct (allocates s _) eqn:Ha;
         simpl; first [done | by case_bool_decide]).
  - simpl. by rewrite (proj1 (proj2 (handleMessage_rest s d))).
  - simpl. by rewrite (proj1 (proj2 (commandTimeout_rest s q'))).
  - change (tagCounter (disconnect s) = tagCounter s).
    by rewrite (proj1 (proj2 (disconnect_rest s))).
Qed.

(** Promises are never removed from the store. *)
Lemma step_promises_length s e :
  (length (promises s) ≤ length (promises (step s e)))%nat.
Proof.
  rewrite (promises_dispatcher (step s e)), step_dispatcher.
  destruct e as [c|c|d|  |c|q'|cmd|h u pw pt ctor| ];
    try (handle_dispatcher_cases s; try destruct (allocates s _) eqn:Ha;
         simpl; try case_bool_decide; simpl; rewrite ?length_app; simpl; lia).
  - simpl. by rewrite (proj2 (proj2 (handleMessage_rest s d))).
  - simpl. by rewrite (proj2 (proj2 (commandTimeout_rest s q'))).
  - change (length (promises s) ≤ length (promises (disconnect s)))%nat.
    by rewrite (proj2 (proj2 (disconnect_rest s))).
Qed.

Lemma js_incr_below n : n < 2 ^ 53 → js_incr n = n + 1.
Proof. intros Hn. unfold js_incr. by rewrite decide_True. Qed.

Lemma js_incr_le n : n ≤ js_incr n ≤ n + 1.
Proof. unfold js_incr. case_decide; lia. Qed.

Lemma tag_of_inj : Inj (=) (=) tag_of.
Proof.
  intros m n H. unfold tag_of in H.
  apply (inj (String.app "tag")) in H. by apply (inj pretty) in H.
Qed.

(** ** C1: every tag is retired once *)

Lemma counter_exact_step s e evs :
  counter_exact s (e :: evs) → counter_exact (step s e) evs.
Proof.
  unfold counter_exact. rewrite step_tagCounter. simpl.
  pose proof (js_incr_le (tagCounter s)). destruct (allocates s e); lia.
Qed.

Lemma counter_exact_below s e evs :
  counter_exact s (e :: evs) → tagCounter s < 2 ^ 53.
Proof. unfold counter_exact. simpl. lia. Qed.

(** A tag number already reached is never allocated again. *)
Lemma no_reallocation n s :
  n ≤ tagCounter s → tagCounter s < 2 ^ 53 →
  tag_of n ≠ tag_of (js_incr (tagCounter s)).
Proof.
  intros Hn Hc Heq. apply tag_of_inj in Heq.
  rewrite js_incr_below in Heq by done. lia.
Qed.

Lemma tracked_step n p s e :
  tagCounter s < 2 ^ 53 → tracked n p s → tracked n p (step s e).
Proof.
  intros Hc [Hn Hp Ht Hk].
  pose proof (no_reallocation n s Hn Hc) as Hfresh.
  split.
  - rewrite step_tagCounter. pose proof (js_incr_le (tagCounter s)).
    destruct (allocates s e); lia.
  - pose proof (step_promises_length s e). lia.
  - intros q. rewrite step_timers.
    destruct e; repeat case_decide;
      first [exact (Ht q) | intuition congruence].
  - rewrite step_callbacks, step_timers.
    destruct e as [c|c|[r|]|  |c|q|cmd|h u pw pt ctor| ];
      repeat case_decide; try (intros [? [=]]; fail);
      try (intuition (congruence || lia)).
Qed.

Lemma not_pending_step n s e :
  n ≤ tagCounter s → tagCounter s < 2 ^ 53 →
  callbacks s !! tag_of n = None → callbacks (step s e) !! tag_of n = None.
Proof.
  intros Hn Hc Hnone. pose proof (no_reallocation n s Hn Hc) as Hfresh.
  rewrite step_callbacks.
  destruct e as [c|c|[r|]|  |c|q|cmd|h u pw pt ctor| ];
    repeat case_decide; intuition congruence.
Qed.

(** Once retired, a tag stays retired. *)
Lemma retirements_not_pending n p s evs :
  tracked n p s → counter_exact s evs →
  callbacks s !! tag_of n = None → retirements s evs (tag_of n) = [].
Proof.
  revert s. induction evs as [|e evs IH]; intros s Htr Hex Hnone; [done|].
  simpl. unfold retired_by. rewrite Hnone.
  rewrite bool_decide_eq_false_2 by (by intros [? ?]). simpl.
  apply IH.
  - eapply tracked_step; [by eapply counter_exact_below|done].
  - by apply counter_exact_step.
  - apply not_pending_step; [apply Htr | by eapply counter_exact_below | done].
Qed.

Lemma tag_of_nonempty n : tag_of n ≠ "".
Proof. done. Qed.

(** Only three events retire a tag: a terminal reply bearing it, the timer
    of its command, and [disconnect]. *)
Lemma retired_by_cause n p s e :
  tagCounter s < 2 ^ 53 → tracked n p s →
  retired_by s e (tag_of n) = true →
  terminal_reply_for (tag_of n) e ∨ e = EvCommandTimeout p ∨ e = EvDisconnect.
Proof.
  intros Hc [Hn Hp Ht Hk]. unfold retired_by.
  rewrite andb_true_iff, !bool_decide_eq_true. intros [Hsome Hnone].
  pose proof (no_reallocation n s Hn Hc) as Hfresh.
  rewrite step_callbacks in Hnone.
  destruct e as [c|c|[r|]|  |c|q|cmd|h u pw pt ctor| ];
    repeat case_decide; try (destruct Hsome; congruence); try by auto.
  - left. exists r. destruct H as [Hkey Hterm]. split; [done|].
    split; [|done]. unfold reply_key in Hkey.
    destruct (tag r) as [tg|]; simpl in Hkey; [by subst|].
    by apply tag_of_nonempty in Hkey.
Qed.

(** Never twice. *)
Lemma retired_at_most_once n p s evs :
  tracked n p s → counter_exact s evs →
  (length (retirements s evs (tag_of n)) ≤ 1)%nat.
Proof.
  revert s. induction evs as [|e evs IH]; intros s Htr Hex; [simpl; lia|].
  pose proof (counter_exact_below _ _ _ Hex) as Hc.
  pose proof (tracked_step n p s e Hc Htr) as Htr'.
  pose proof (counter_exact_step _ _ _ Hex) as Hex'.
  simpl. destruct (retired_by s e (tag_of n)) eqn:Hret.
  - unfold retired_by in Hret.
    apply andb_true_iff in Hret as [_ Hnone%bool_decide_eq_true].
    rewrite (retirements_not_pending n p) by done. simpl. lia.
  - simpl. by apply IH.
Qed.

(** Never zero times, once the timer of the command has fired. *)
Lemma retired_at_least_once n p s evs :
  tracked n p s → counter_exact s evs →
  is_Some (callbacks s !! tag_of n) →
  EvCommandTimeout p ∈ evs →
  retirements s evs (tag_of n) ≠ [].
Proof.
  revert s. induction evs as [|e evs IH]; intros s Htr Hex Hsome Hin.
  { by apply elem_of_nil in Hin. }
  pose proof (counter_exact_below _ _ _ Hex) as Hc.
  simpl. destruct (retired_by s e (tag_of n)) eqn:Hret; [done|]. simpl.
  unfold retired_by in Hret.
  rewrite bool_decide_eq_true_2 in Hret by done. simpl in Hret.
  apply bool_decide_eq_false in Hret.
  apply IH.
  - by apply tracked_step.
  - by apply counter_exact_step.
  - by apply not_eq_None_Some.
  - apply elem_of_cons in Hin as [<-|Hin]; [|done].
    destruct Hret. rewrite step_callbacks.
    rewrite decide_True; [done|]. by apply Htr.
Qed.

(** Every retirement in a run has one of the three causes. *)
Lemma retirements_cause n p s evs e :
  tracked n p s → counter_exact s evs →
  e ∈ retirements s evs (tag_of n) →
  terminal_reply_for (tag_of n) e ∨ e = EvCommandTimeout p ∨ e = EvDisconnect.
Proof.
  revert s. induction evs as [|e0 evs IH]; intros s Htr Hex Hin.
  { by apply elem_of_nil in Hin. }
  pose proof (counter_exact_below _ _ _ Hex) as Hc.
  simpl in Hin. apply elem_of_app in Hin as [Hin|Hin].
  - destruct (retired_by s e0 (tag_of n)) eqn:Hret.
    + apply list_elem_of_singleton in Hin as ->.
      by eapply retired_by_cause.
    + by apply elem_of_nil in Hin.
  - eapply IH; [by apply tracked_step | by apply counter_exact_step | done].
Qed.

(** A retirement is an event of the run. *)
Lemma retirements_sub s evs t e : e ∈ retirements s evs t → e ∈ evs.
Proof.
  revert s. induction evs as [|e0 evs IH]; intros s Hin; [done|].
  simpl in Hin. apply elem_of_app in Hin as [Hin|Hin].
  - destruct (retired_by s e0 t); [|by apply elem_of_nil in Hin].
    apply list_elem_of_singleton in Hin as ->. by left.
  - right. by eapply IH.
Qed.

(** [sendCommand] registers a tracked command. *)
Lemma sendCommand_tracked s c :
  sendable s → tagCounter s < 2 ^ 53 →
  (∀ q, timers s !! q ≠ Some (tag_of (tagCounter s + 1))) →
  let '(s1, p) := sendCommand s c in
  p = length (promises s)
  ∧ tagCounter s1 = tagCounter s + 1
  ∧ callbacks s1 !! tag_of (tagCounter s + 1) = Some p
  ∧ tracked (tagCounter s + 1) p s1.
Proof.
  intros Hs Hc Hfree. rewrite (sendCommand_sendable s c Hs). cbv zeta.
  rewrite js_incr_below by done.
  split; [done|]. split; [done|]. split; [apply lookup_insert_eq|].
  split; simpl.
  - lia.
  - rewrite length_app. simpl. lia.
  - intros q. rewrite lookup_insert. case_decide; [done|].
    intros Hq. by apply Hfree in Hq.
  - intros _. apply lookup_insert_eq.
Qed.




(** ** The login of a fresh session never succeeds

    [sendCommand] refuses to send unless [connected] is set, and [connected]
    is set only from the answer to the login that [sendCommand] is asked to
    send.  Starting from a new session, the flag therefore stays clear, the
    pending set stays empty and every WebSocket connect resolves [false]. *)

Lemma settle_lookup_cases {A} p q (v x : promise A) ps :
  settle p v ps !! q = Some x → x = v ∨ ps !! q = Some x.
Proof.
  destruct (decide (p = q)) as [->|Hne].
  - unfold settle. intros H.
    destruct (ps !! q) as [[]|] eqn:Hq; [|right; congruence..].
    rewrite list_lookup_insert_eq in H by (by eapply lookup_lt_Some).
    left. congruence.
  - rewrite settle_other by done. by right.
Qed.

Lemma lookup_snoc_cases {A} (l : list A) (x y : A) i :
  (l ++ [x]) !! i = Some y → y = x ∨ l !! i = Some y.
Proof.
  intros H. apply lookup_app_Some in H as [H|[_ H]]; [by right|].
  left. destruct (i - length l)%nat; simpl in H; [by injection H|done].
Qed.

Lemma unauthenticated_new : unauthenticated RouterOSAPI_new.
Proof. by split. Qed.

Lemma unauthenticated_not_sendable s : unauthenticated s → ¬ sendable s.
Proof. intros [Hc _ _ _] [_ Hs]. congruence. Qed.

Lemma unauthenticated_sendCommand s c :
  unauthenticated s → unauthenticated (sendCommand s c).1.
Proof.
  intros Hu. pose proof Hu as [Hc Hk Hp Hcs].
  rewrite (sendCommand_not_sendable s c (unauthenticated_not_sendable s Hu)).
  split; simpl; try done.
  intros p r H. apply lookup_snoc_cases in H as [[=]|H]. by eapply Hp.
Qed.

Lemma unauthenticated_handle s e :
  unauthenticated s → unauthenticated (handle s e).
Proof.
  intros Hu. pose proof Hu as [Hc Hk Hp Hcs].
  destruct e as [c|c|[r|]|  |c|q|cmd|h u pw pt ctor| ]; unfold handle.
  - case_bool_decide; [|done]. unfold onopen.
    pose proof (unauthenticated_sendCommand s (loginCommand s) Hu) as Hu'.
    destruct (sendCommand s (loginCommand s)) as [s1 p].
    by destruct Hu'.
  - split; simpl; try done.
    intros c' H. apply settle_lookup_cases in H as [[=]|H]. by eapply Hcs.
  - rewrite handleMessage_unknown; [done|]. by rewrite Hk.
  - done.
  - done.
  - rewrite Hc. split; simpl; try done.
    intros c' H. apply settle_lookup_cases in H as [[=]|H]. by eapply Hcs.
  - unfold commandTimeout. destruct (timers s !! q); [|done].
    simpl. rewrite Hk, lookup_empty.
    rewrite bool_decide_eq_false_2 by (by intros [? ?]). done.
  - by apply unauthenticated_sendCommand.
  - unfold connect. destruct ctor; split; simpl; try done;
      intros c' H; apply lookup_snoc_cases in H as [[=]|H]; by eapply Hcs.
  - unfold disconnect. by destruct (ws s).
Qed.

Lemma unauthenticated_finish_login s pc :
  unauthenticated s → unauthenticated (finish_login s pc).
Proof.
  intros [Hc Hk Hp Hcs]. unfold finish_login, login_k, await.
  destruct (promises s !! pc.1) as [[|r|e]|] eqn:Hl; simpl; try done.
  - by apply Hp in Hl.
  - split; simpl; try done.
    intros c' H. apply settle_lookup_cases in H as [[=]|H]. by eapply Hcs.
Qed.

Lemma unauthenticated_step s e :
  unauthenticated s → unauthenticated (step s e).
Proof.
  intros Hu%(unauthenticated_handle s e). unfold step, resume_logins.
  assert (Hu0 : unauthenticated (set_logins [] (handle s e)))
    by (by destruct Hu).
  revert Hu0. generalize (set_logins [] (handle s e)).
  induction (logins (handle s e)) as [|pc l IH]; intros s0 Hs0; [done|].
  simpl. apply IH. by apply unauthenticated_finish_login.
Qed.

Lemma unauthenticated_run s evs :
  unauthenticated s → unauthenticated (run s evs).
Proof.
  revert s. induction evs as [|e evs IH]; intros s Hu; [done|].
  simpl. apply IH. by apply unauthenticated_step.
Qed.

(** In no state a new session can reach is [connected] set, and every
    command submitted there is rejected on the spot, nothing being sent. *)
Lemma fresh_session_never_connected (evs : list event) (c : RouterOSCommand) :
  let s := run RouterOSAPI_new evs in
  isConnected s = false
  ∧ callbacks s = ∅
  ∧ (let '(s', p) := sendCommand s c in
     promises s' !! p = Some (Rejected (Error "Not connected to RouterOS"))
     ∧ io s' = io s).
Proof.
  pose proof (unauthenticated_run _ evs unauthenticated_new) as Hu.
  split; [apply Hu|]. split; [apply Hu|].
  rewrite (sendCommand_not_sendable _ c (unauthenticated_not_sendable _ Hu)).
  simpl. split; [|done].
  rewrite lookup_app_r, Nat.sub_diag by lia. done.
Qed.

Lemma await_connect_unauthenticated s c evs :
  unauthenticated s →
  unauthenticated (await_connect s c evs).1.1
  ∧ (await_connect s c evs).1.2 ≠ Returned true.
Proof.
  revert s. induction evs as [|e evs IH]; intros s Hu; simpl.
  - unfold await. destruct (connects s !! c) as [[|[]|]|] eqn:Hc;
      simpl; try done.
    by apply Hu in Hc.
  - unfold await. destruct (connects s !! c) as [[|[]|]|] eqn:Hc;
      simpl; try done; try (apply IH; by apply unauthenticated_step).
    by apply Hu in Hc.
Qed.

Ltac not_in_calls :=
  let H := fresh in
  intros H; rewrite ?elem_of_cons in H; rewrite ?elem_of_nil in H;
  intuition discriminate.

Lemma connect_http_never_ws m0 h u pw pt useHttps env before :
  CallWsGetSystemResource ∉ before →
  let '(m', result, calls) :=
    connect_http m0 h u pw pt useHttps env before in
  wsApi m' = wsApi m0
  ∧ (CallWsGetSystemResource ∉ calls)
  ∧ (∀ r, result = Returned r → method r = Some "HTTP REST API").
Proof.
  intros Hb. unfold connect_http.
  pose proof (HTTP_connect_not_false (httpApi m0) h u pw (num_or pt 80)
                useHttps (fetch env 0%nat)) as Hnf.
  destruct (HTTP.connect _ _ _ _ _ _ _) as [a1 conn]. simpl in Hnf.
  assert (Hcalls : ∀ tail, CallWsGetSystemResource ∉ tail →
                           CallWsGetSystemResource ∉ before ++ tail).
  { intros tail Ht Hin. apply elem_of_app in Hin as [Hin|Hin]; auto. }
  destruct conn as [|[]|e]; [| |done|].
  - split; [done|]. split; [|by intros ? [=]].
    apply Hcalls. not_in_calls.
  - destruct (HTTP.getSystemResource a1 (fetch env 1%nat)) as [|info|e];
      rewrite <- ?app_assoc; (split; [done|]);
      (split; [apply Hcalls; simpl; not_in_calls|]);
      intros r [=]; by subst.
  - rewrite <- ?app_assoc. split; [done|]. split; [|by intros ? [=]].
    apply Hcalls. simpl. not_in_calls.
Qed.

(** A manager whose WebSocket session has never authenticated never selects
    the WebSocket method: whatever the router does, [connect] either is
    still waiting, or throws, or answers through HTTP; and the session is
    left unauthenticated again. *)
Lemma Manager_connect_never_ws m h u pw pt useHttps env :
  unauthenticated (wsApi m) →
  let '(m', result, calls) := Manager_connect m h u pw pt useHttps env in
  unauthenticated (wsApi m')
  ∧ (CallWsGetSystemResource ∉ calls)
  ∧ (∀ r, result = Returned r → method r = Some "HTTP REST API").
Proof.
  intros Hu. rewrite Manager_connect_unfold. unfold ws_attempt.
  assert (Hu1 : unauthenticated
                  (connect (wsApi m) h u pw (num_or pt 8728) (ws_ctor env)).1)
    by apply (unauthenticated_handle _ (EvConnect _ _ _ _ _) Hu).
  destruct (connect _ _ _ _ _ _) as [w1 c]. simpl in Hu1.
  pose proof (await_connect_unauthenticated w1 c (ws_events env) Hu1)
    as [Hu2 Hnot].
  destruct (await_connect w1 c (ws_events env)) as [[w2 [|[]|e]] rest];
    simpl in Hu2, Hnot; cbv zeta; [|done| |].
  - split; [done|]. split; [|by intros ? [=]]. not_in_calls.
  - pose proof (connect_http_never_ws
                  (mkManager w2 (httpApi m) (currentApi m)
                     (Some (config_of h u pw pt useHttps)))
                  h u pw pt useHttps env [CallWsConnect]) as H.
    destruct (connect_http _ _ _ _ _ _ _ _) as [[m' result] calls].
    destruct H as (-> & ? & ?); [not_in_calls|done].
  - pose proof (connect_http_never_ws
                  (mkManager w2 (httpApi m) (currentApi m)
                     (Some (config_of h u pw pt useHttps)))
                  h u pw pt useHttps env
                  [CallWsConnect;
                   ConsoleWarn "WebSocket API connection failed:" e]) as H.
    destruct (connect_http _ _ _ _ _ _ _ _) as [[m' result] calls].
    destruct H as (-> & ? & ?); [not_in_calls|done].
Qed.

(** * Further properties of the dispatcher *)

(** ** How a step changes the promise store *)

Lemma handleMessage_promises s r :
  promises (handleMessage s (Some r)) =
    match callbacks s !! reply_key r with
    | Some p => callback p r (promises s)
    | None => promises s
    end.
Proof.
  unfold handleMessage. fold (reply_key r).
  destruct (callbacks s !! reply_key r); [|done].
  by destruct (is_terminal (type r)).
Qed.

Lemma commandTimeout_promises s q :
  promises (commandTimeout s q) =
    match timers s !! q with
    | Some tg =>
        if bool_decide (is_Some (callbacks s !! tg))
        then reject q (Error "Command timeout") (promises s)
        else promises s
    | None => promises s
    end.
Proof.
  unfold commandTimeout. destruct (timers s !! q); [|done].
  simpl. by case_bool_decide.
Qed.

Lemma callback_lookup_other p q r ps :
  p ≠ q → callback p r ps !! q = ps !! q.
Proof.
  intros Hne. unfold callback, resolve, reject.
  destruct (type r); by rewrite ?settle_other.
Qed.

Lemma callback_lookup_settled p q r ps :
  ps !! q ≠ Some Pending → callback p r ps !! q = ps !! q.
Proof.
  intros Hq. unfold callback, resolve, reject.
  destruct (type r); by rewrite ?settle_settled.
Qed.

Lemma callback_data p r ps : is_terminal (type r) = false → callback p r ps = ps.
Proof. unfold callback. by destruct (type r). Qed.

(** A promise of the store changes in two ways only: a terminal reply
    arrives whose callback holds it, or its own timer fires while the
    timer's tag is pending; and then it was pending. *)
Lemma step_promises_changed s e p x :
  promises s !! p = Some x →
  promises (step s e) !! p = Some x
  ∨ (x = Pending
     ∧ ((∃ r, e = EvMessage (Some r)
              ∧ callbacks s !! reply_key r = Some p
              ∧ is_terminal (type r) = true)
        ∨ (e = EvCommandTimeout p
           ∧ ∃ tg, timers s !! p = Some tg ∧ is_Some (callbacks s !! tg)))).
Proof.
  intros Hp. pose proof (lookup_lt_Some _ _ _ Hp) as Hlt.
  rewrite (promises_dispatcher (step s e)), step_dispatcher.
  destruct e as [c|c|[r|]|  |c|q|cmd|h u pw pt ctor| ];
    try (handle_dispatcher_cases s; try destruct (allocates s _);
         simpl; try case_bool_decide; simpl;
         rewrite ?lookup_app_l by done; by left).
  - change ((dispatcher (handle s (EvMessage (Some r)))).2)
      with (promises (handleMessage s (Some r))).
    rewrite handleMessage_promises.
    destruct (callbacks s !! reply_key r) as [p0|] eqn:Hk; [|by left].
    destruct (is_terminal (type r)) eqn:Hterm;
      [|rewrite callback_data by done; by left].
    destruct (decide (p0 = p)) as [->|Hne];
      [|rewrite callback_lookup_other by done; by left].
    destruct x as [|v|err].
    + right. split; [done|]. left. by exists r.
    + left. rewrite callback_lookup_settled; [done|]. congruence.
    + left. rewrite callback_lookup_settled; [done|]. congruence.
  - by left.
  - change ((dispatcher (handle s (EvCommandTimeout q))).2)
      with (promises (commandTimeout s q)).
    rewrite commandTimeout_promises.
    destruct (timers s !! q) as [tg|] eqn:Ht; [|by left].
    case_bool_decide as Hc; [|by left].
    destruct (decide (q = p)) as [->|Hne];
      [|unfold reject; rewrite settle_other by done; by left].
    destruct x as [|v|err].
    + right. split; [done|]. right. split; [done|]. by exists tg.
    + left. unfold reject. rewrite settle_settled; [done|]. congruence.
    + left. unfold reject. rewrite settle_settled; [done|]. congruence.
  - change ((dispatcher (handle s EvDisconnect)).2)
      with (promises (disconnect s)).
    rewrite (proj2 (proj2 (disconnect_rest s))). by left.
Qed.

Lemma step_promises_alloc s e :
  allocates s e = true → promises (step s e) = promises s ++ [Pending].
Proof.
  intros Ha. rewrite (promises_dispatcher (step s e)), step_dispatcher.
  destruct e; try done; handle_dispatcher_cases s; by rewrite Ha.
Qed.

(** ** X4: pending commands are unresolved and have their timer armed *)

Lemma pending_ok_step s e : pending_ok s → pending_ok (step s e).
Proof.
  intros Hok t p Hnew.
  assert (Hold : callbacks s !! t = Some p →
                 (¬ ∃ r, e = EvMessage (Some r) ∧ reply_key r = t
                         ∧ is_terminal (type r) = true) →
                 (∀ q, e = EvCommandTimeout q → timers s !! q ≠ Some t) →
                 promises (step s e) !! p = Some Pending
                 ∧ timers (step s e) !! p = Some t).
  { intros Hk Hmsg Htime. destruct (Hok t p Hk) as [Hp Ht]. split.
    - destruct (step_promises_changed s e p Pending Hp)
        as [?|[_ [(r & -> & Hkr & Hterm)|(-> & _)]]]; [done| |].
      + destruct Hmsg. exists r. split; [done|]. split; [|done].
        destruct (Hok _ _ Hkr) as [_ Ht']. congruence.
      + by destruct (Htime p eq_refl).
    - rewrite step_timers. pose proof (lookup_lt_Some _ _ _ Hp) as Hlt.
      destruct e as [c|c|[r|]|  |c|q|cmd|h u pw pt ctor| ];
        repeat case_decide; try done; try (intuition lia).
      subst q. by destruct (Htime p eq_refl). }
  rewrite step_callbacks in Hnew.
  destruct (allocates s e) eqn:Ha.
  - destruct e as [c|c|[r|]|  |c|q|cmd|h u pw pt ctor| ];
      try discriminate Ha; try rewrite Ha in Hnew;
      (case_decide as Hd;
       [ destruct Hd as [_ ->]; injection Hnew as <-; split;
         [ rewrite step_promises_alloc by done;
           by rewrite lookup_app_r, Nat.sub_diag by lia
         | rewrite step_timers, Ha; by rewrite decide_True ]
       | apply Hold; [done | by intros (? & [=] & _) | by intros ? [=]] ]).
  - destruct e as [c|c|[r|]|  |c|q|cmd|h u pw pt ctor| ];
      try (try rewrite Ha in Hnew; case_decide as Hd; [by destruct Hd|];
           apply Hold; [done | by intros (? & [=] & _) | by intros ? [=]]).
    + case_decide as Hd; [done|].
      apply Hold; [done| |by intros ? [=]].
      intros (r' & [= <-] & Hkey & Hterm). by destruct Hd.
    + case_decide as Hd; [done|].
      apply Hold; [done|by intros (? & [=] & _)|]. by intros ? [= <-].
    + done.
Qed.

Lemma pending_ok_run s evs : pending_ok s → pending_ok (run s evs).
Proof.
  revert s. induction evs as [|e evs IH]; intros s Hok; [done|].
  simpl. apply IH. by apply pending_ok_step.
Qed.

Lemma pending_ok_no_callbacks s : callbacks s = ∅ → pending_ok s.
Proof. intros Hk t p. by rewrite Hk, lookup_empty. Qed.



(** ** X5: the timer of a pending command rejects it *)

(** X5. In a run that started with nothing pending, when the 30 s timer of
    a command fires while its tag is still pending, the command is rejected
    with "Command timeout" and its tag leaves the pending set; every other
    command keeps its promise and its place in the pending set. *)
Theorem X5_timer_rejects_pending_command
    (s0 : RouterOSAPI) (evs : list event) (t : string) (p : nat) :
  callbacks s0 = ∅ →
  let s := run s0 evs in
  callbacks s !! t = Some p →
  let s' := step s (EvCommandTimeout p) in
  promises s' !! p = Some (Rejected (Error "Command timeout"))
  ∧ callbacks s' !! t = None
  ∧ (∀ q, q ≠ p → promises s' !! q = promises s !! q)
  ∧ (∀ t', t' ≠ t → callbacks s' !! t' = callbacks s !! t').
Proof.
  intros Hk0 s Hk s'.
  pose proof (pending_ok_run s0 evs (pending_ok_no_callbacks s0 Hk0)) as Hok.
  fold s in Hok. destruct (Hok t p Hk) as [Hp Ht].
  assert (Hprom : promises s' = reject p (Error "Command timeout") (promises s)).
  { subst s'. rewrite (promises_dispatcher (step s _)), step_dispatcher.
    change ((dispatcher (handle s (EvCommandTimeout p))).2)
      with (promises (commandTimeout s p)).
    rewrite commandTimeout_promises, Ht.
    by rewrite bool_decide_eq_true_2 by (by rewrite Hk). }
  split; [rewrite Hprom; by apply settle_pending|]. split.
  { subst s'. rewrite step_callbacks. by rewrite decide_True. }
  split.
  { intros q Hq. rewrite Hprom. unfold reject. by rewrite settle_other. }
  intros t' Ht'. subst s'. rewrite step_callbacks.
  rewrite decide_False; [done|]. congruence.
Qed.

Lemma X5_witness :
  let s := run session_open
             [EvSendCommand (print_cmd "/interface/print");
              EvSendCommand (removeHotspotUser_cmd "*1")] in
  let s' := step s (EvCommandTimeout 0) in
  promises s' = [Rejected (Error "Command timeout"); Pending]
  ∧ callbacks s' !! "tag1" = None
  ∧ callbacks s' !! "tag2" = Some 1%nat.
Proof.
  pose proof (X5_timer_rejects_pending_command session_open
                [EvSendCommand (print_cmd "/interface/print");
                 EvSendCommand (removeHotspotUser_cmd "*1")]
                "tag1" 0%nat) as H.
  destruct H as (_ & Hgone & _ & _); [by vm_compute..|].
  split; [by vm_compute|]. split; [exact Hgone | by vm_compute].
Defined.

(** ** X6: an outcome, once delivered, is final *)

Lemma step_promises_settled s e p x :
  promises s !! p = Some x → x ≠ Pending →
  promises (step s e) !! p = Some x.
Proof.
  intros Hp Hx. destruct (step_promises_changed s e p x Hp) as [?|[? _]]; done.
Qed.

Lemma lookup_snoc_old {A} (l : list A) (y : A) i x :
  l !! i = Some x → (l ++ [y]) !! i = Some x.
Proof. intros H. rewrite lookup_app_l; [done|]. by eapply lookup_lt_Some. Qed.

Lemma handle_connects_settled s e c x :
  connects s !! c = Some x → x ≠ Pending →
  connects (handle s e) !! c = Some x.
Proof.
  intros Hc Hx.
  assert (Hset : ∀ c' v, settle c' v (connects s) !! c = Some x).
  { intros c' v. rewrite settle_settled; [done|]. congruence. }
  destruct e as [c0|c0|[r|]|  |c0|q|cmd|h u pw pt ctor| ]; unfold handle.
  - case_bool_decide; [|done]. unfold onopen, sendCommand.
    by destruct (negb _ || negb _).
  - apply Hset.
  - unfold handleMessage. destruct (callbacks s !! _); [|done].
    by destruct (is_terminal _).
  - done.
  - done.
  - destruct (negb (connected s)); [apply Hset|done].
  - unfold commandTimeout. destruct (timers s !! q); [|done].
    simpl. by case_bool_decide.
  - unfold sendCommand. by destruct (negb _ || negb _).
  - unfold connect. destruct ctor; simpl; by apply lookup_snoc_old.
  - unfold disconnect. by destruct (ws s).
Qed.

Lemma finish_login_connects_settled s pc c x :
  connects s !! c = Some x → x ≠ Pending →
  connects (finish_login s pc) !! c = Some x.
Proof.
  intros Hc Hx. unfold finish_login.
  destruct (login_k _); simpl; try done;
    unfold resolve, reject; rewrite settle_settled; congruence.
Qed.

Lemma step_connects_settled s e c x :
  connects s !! c = Some x → x ≠ Pending →
  connects (step s e) !! c = Some x.
Proof.
  intros Hc Hx. unfold step, resume_logins.
  pose proof (handle_connects_settled s e c x Hc Hx) as H0.
  change (connects (handle s e)) with (connects (set_logins [] (handle s e)))
    in H0.
  revert H0. generalize (set_logins [] (handle s e)).
  induction (logins (handle s e)) as [|pc l IH]; intros s0 H0; [done|].
  simpl. apply IH. by apply finish_login_connects_settled.
Qed.



(** ** X7: replies for different commands do not interfere *)

Lemma settle_comm {A} p q (v w : promise A) ps :
  p ≠ q → settle p v (settle q w ps) = settle q w (settle p v ps).
Proof.
  intros Hne. unfold settle at 1 3.
  rewrite !settle_other by done.
  destruct (ps !! p) as [[]|] eqn:Hp; destruct (ps !! q) as [[]|] eqn:Hq;
    unfold settle; rewrite ?Hp, ?Hq; try done;
    rewrite ?list_lookup_insert_ne by done; rewrite ?Hp, ?Hq; try done.
  by apply list_insert_insert_ne.
Qed.

Lemma callback_comm p q r1 r2 ps :
  p ≠ q → callback p r1 (callback q r2 ps) = callback q r2 (callback p r1 ps).
Proof.
  intros Hne. unfold callback, resolve, reject.
  destruct (type r1), (type r2); try done; by apply settle_comm.
Qed.

(** X7. In a run that started with nothing pending, two replies bearing
    different tags can be delivered in either order: the session that
    results, with every promise and the whole pending set, is the same. *)
Theorem X7_replies_for_different_tags_commute
    (s0 : RouterOSAPI) (evs : list event) (r1 r2 : RouterOSResponse) :
  callbacks s0 = ∅ →
  default "" (tag r1) ≠ default "" (tag r2) →
  let s := run s0 evs in
  handleMessage (handleMessage s (Some r1)) (Some r2)
  = handleMessage (handleMessage s (Some r2)) (Some r1).
Proof.
  intros Hk0 Hne s. fold (reply_key r1) (reply_key r2) in Hne.
  pose proof (pending_ok_run s0 evs (pending_ok_no_callbacks s0 Hk0)) as Hok.
  fold s in Hok. clearbody s.
  assert (Hk12 : callbacks (handleMessage s (Some r1)) !! reply_key r2
                 = callbacks s !! reply_key r2).
  { rewrite handleMessage_callbacks. rewrite decide_False; [done|].
    intros [? _]. congruence. }
  assert (Hk21 : callbacks (handleMessage s (Some r2)) !! reply_key r1
                 = callbacks s !! reply_key r1).
  { rewrite handleMessage_callbacks. rewrite decide_False; [done|].
    by intros [? _]. }
  destruct (callbacks s !! reply_key r1) as [p1|] eqn:H1;
    destruct (callbacks s !! reply_key r2) as [p2|] eqn:H2.
  - assert (Hp : p1 ≠ p2).
    { intros ->. destruct (Hok _ _ H1) as [_ Ht1].
      destruct (Hok _ _ H2) as [_ Ht2]. congruence. }
    rewrite (handleMessage_known _ r2 p2 Hk12).
    rewrite (handleMessage_known _ r1 p1 Hk21).
    rewrite (handleMessage_known s r1 p1 H1), (handleMessage_known s r2 p2 H2).
    destruct s as [? ? ? ? ? ? cb ? ps ? ? ? ?]. cbv zeta.
    destruct (is_terminal (type r1)), (is_terminal (type r2));
      unfold set_callbacks, set_promises; simpl;
      rewrite (callback_comm p2 p1) by done; try done.
    f_equal. apply delete_delete.
  - rewrite (handleMessage_unknown _ r2) by (by rewrite Hk12).
    by rewrite (handleMessage_unknown s r2 H2).
  - rewrite (handleMessage_unknown s r1 H1).
    by rewrite (handleMessage_unknown _ r1) by (by rewrite Hk21).
  - by rewrite (handleMessage_unknown s r1 H1), (handleMessage_unknown s r2 H2),
      (handleMessage_unknown s r1 H1).
Qed.

Lemma X7_witness :
  let s := run session_open
             [EvSendCommand (print_cmd "/interface/print");
              EvSendCommand (removeHotspotUser_cmd "*1")] in
  let done1 := reply TDone "tag1" (JArr []) None in
  let trap2 := reply TTrap "tag2" JUndefined (Some "no such item") in
  handleMessage (handleMessage s (Some done1)) (Some trap2)
  = handleMessage (handleMessage s (Some trap2)) (Some done1).
Proof.
  apply (X7_replies_for_different_tags_commute session_open
           [EvSendCommand (print_cmd "/interface/print");
            EvSendCommand (removeHotspotUser_cmd "*1")]
           (reply TDone "tag1" (JArr []) None)
           (reply TTrap "tag2" JUndefined (Some "no such item"))).
  - by vm_compute.
  - by vm_compute.
Defined.

(** ** X8: tags are fresh *)

Lemma tags_numbered_step s e : tags_numbered s → tags_numbered (step s e).
Proof.
  intros Hn t p. rewrite step_callbacks, step_tagCounter.
  pose proof (js_incr_le (tagCounter s)) as Hle.
  assert (Hold : callbacks s !! t = Some p →
                 ∃ k, t = tag_of k
                      ∧ k ≤ (if allocates s e then js_incr (tagCounter s)
                             else tagCounter s)).
  { intros Hk. destruct (Hn t p Hk) as (k & -> & Hk'). exists k.
    split; [done|]. destruct (allocates s e); lia. }
  destruct e as [c|c|[r|]|  |c|q|cmd|h u pw pt ctor| ];
    repeat case_decide; try done;
    try (intros _; destruct H as [-> ->]; eexists; split; [done|lia]).
Qed.

Lemma tags_numbered_run s evs : tags_numbered s → tags_numbered (run s evs).
Proof.
  revert s. induction evs as [|e evs IH]; intros s Hn; [done|].
  simpl. apply IH. by apply tags_numbered_step.
Qed.

Lemma run_tagCounter_le s evs :
  tagCounter (run s evs) ≤ tagCounter s + N.of_nat (length evs).
Proof.
  revert s. induction evs as [|e evs IH]; intros s; simpl; [lia|].
  specialize (IH (step s e)). rewrite step_tagCounter in IH.
  pose proof (js_incr_le (tagCounter s)). destruct (allocates s e); lia.
Qed.

(** X8. In a run that started with nothing pending and keeps the counter
    below 2^53, the tag [sendCommand] allocates is not in the pending set:
    registering the new command replaces no callback, every command that was
    pending stays pending with its own promise, and the pending set grows
    by exactly one. *)
Theorem X8_sendCommand_allocates_a_fresh_tag
    (s0 : RouterOSAPI) (evs : list event) (cmd : RouterOSCommand) :
  callbacks s0 = ∅ →
  tagCounter s0 + N.of_nat (length evs) < 2 ^ 53 →
  let s := run s0 evs in
  sendable s →
  let '(s1, p) := sendCommand s cmd in
  let t := tag_of (tagCounter s + 1) in
  callbacks s !! t = None
  ∧ callbacks s1 !! t = Some p
  ∧ (∀ t' q, callbacks s !! t' = Some q → callbacks s1 !! t' = Some q)
  ∧ size (callbacks s1) = S (size (callbacks s)).
Proof.
  intros Hk0 Hbound s Hs.
  assert (Hn : tags_numbered s).
  { apply tags_numbered_run. intros t p. by rewrite Hk0, lookup_empty. }
  pose proof (run_tagCounter_le s0 evs) as Hle. fold s in Hle.
  rewrite (sendCommand_sendable s cmd Hs). cbv zeta.
  rewrite js_incr_below by lia.
  assert (Hfresh : callbacks s !! tag_of (tagCounter s + 1) = None).
  { destruct (callbacks s !! tag_of (tagCounter s + 1)) as [q|] eqn:Hq;
      [|done].
    destruct (Hn _ _ Hq) as (k & Hk & Hk'). apply tag_of_inj in Hk. lia. }
  split; [done|]. simpl. split; [apply lookup_insert_eq|]. split.
  - intros t' q Hq. rewrite lookup_insert_ne; [done|]. congruence.
  - by apply map_size_insert_None.
Qed.

Lemma X8_witness :
  let s := run session_open [EvSendCommand (print_cmd "/interface/print")] in
  let '(s1, p) := sendCommand s (removeHotspotUser_cmd "*1") in
  let t := tag_of (tagCounter s + 1) in
  callbacks s !! t = None
  ∧ callbacks s1 !! t = Some p
  ∧ (∀ t' q, callbacks s !! t' = Some q → callbacks s1 !! t' = Some q)
  ∧ size (callbacks s1) = S (size (callbacks s)).
Proof.
  apply (X8_sendCommand_allocates_a_fresh_tag session_open
           [EvSendCommand (print_cmd "/interface/print")]
           (removeHotspotUser_cmd "*1")).
  - by vm_compute.
  - by vm_compute.
  - split; [by eexists | by vm_compute].
Defined.

(** * Further properties of the session and of the manager *)

(** ** X1: a session created by the constructor never authenticates *)

Lemma run_op_not_sendable {A} (cmd : RouterOSCommand)
    (k : async RouterOSResponse → async A) s evs :
  ¬ sendable s →
  run_op cmd k s evs =
    (set_promises
       (promises s ++ [Rejected (Error "Not connected to RouterOS")]) s,
     k (Threw (Error "Not connected to RouterOS")), evs).
Proof.
  intros Hn. unfold run_op. rewrite (sendCommand_not_sendable s cmd Hn).
  rewrite await_command_settled; simpl; rewrite await_new; by simpl.
Qed.

(** X1. Whatever events a session created by [new RouterOSAPI()] goes
    through, [isConnected] stays [false], no [connect] promise resolves
    [true], and every typed operation gets the rejection
    'Not connected to RouterOS' at once: it consumes no event and sends
    nothing. *)
Theorem X1_new_session_never_authenticates {A : Type}
    (evs rest : list event) (cmd : RouterOSCommand)
    (k : async RouterOSResponse → async A) :
  let s := run RouterOSAPI_new evs in
  isConnected s = false
  ∧ (∀ c, await (connects s) c ≠ Returned true)
  ∧ (run_op cmd k s rest).1.2 = k (Threw (Error "Not connected to RouterOS"))
  ∧ (run_op cmd k s rest).2 = rest
  ∧ io (run_op cmd k s rest).1.1 = io s.
Proof.
  intros s.
  pose proof (unauthenticated_run _ evs unauthenticated_new) as Hu.
  fold s in Hu. split; [apply Hu|]. split.
  - intros c. unfold await.
    destruct (connects s !! c) as [[|[]|]|] eqn:Hc; try done.
    by apply Hu in Hc.
  - by rewrite (run_op_not_sendable cmd k s rest
                  (unauthenticated_not_sendable s Hu)).
Qed.

(** ** X2: the manager never selects the WebSocket method *)

(** X2. A manager whose WebSocket session has not authenticated never gets
    to the WebSocket probe: [connect] is still waiting, throws, or answers
    with ['HTTP REST API'], the session stays unauthenticated, and the
    current method is no more ws than it was. *)
Theorem X2_manager_never_selects_websocket
    (m : MikroTikAPIManager) (h u pw : string) (pt : option N)
    (useHttps : bool) (env : environment) :
  unauthenticated (wsApi m) →
  let '(m', result, calls) := Manager_connect m h u pw pt useHttps env in
  unauthenticated (wsApi m')
  ∧ (CallWsGetSystemResource ∉ calls)
  ∧ (∀ r, result = Returned r → method r = Some "HTTP REST API")
  ∧ (getCurrentMethod m ≠ Some "ws" → getCurrentMethod m' ≠ Some "ws").
Proof.
  intros Hu.
  pose proof (Manager_connect_never_ws m h u pw pt useHttps env Hu) as H.
  assert (Hcur : let m' := (Manager_connect m h u pw pt useHttps env).1.1 in
                 currentApi m' = Some ApiHttp ∨ currentApi m' = currentApi m).
  { rewrite Manager_connect_unfold. unfold ws_attempt.
    assert (Hu1 : unauthenticated
                    (connect (wsApi m) h u pw (num_or pt 8728) (ws_ctor env)).1)
      by apply (unauthenticated_handle _ (EvConnect _ _ _ _ _) Hu).
    destruct (connect _ _ _ _ _ _) as [w1 c]. simpl in Hu1.
    pose proof (await_connect_unauthenticated w1 c (ws_events env) Hu1)
      as [_ Hnot].
    destruct (await_connect w1 c (ws_events env)) as [[w2 [|[]|e]] rest];
      simpl in Hnot; cbv zeta; [by right|done| |];
      match goal with
      | |- context [connect_http ?m0 _ _ _ _ _ _ ?b] =>
          apply (connect_http_currentApi m0 h u pw pt useHttps env b)
      end. }
  destruct (Manager_connect m h u pw pt useHttps env) as [[m' result] calls].
  destruct H as (? & ? & ?). split; [done|]. split; [done|]. split; [done|].
  simpl in Hcur. unfold getCurrentMethod.
  destruct Hcur as [Hc | Hc]; rewrite Hc; [done|].
  by destruct (currentApi m) as [[]|].
Qed.

Lemma X2_witness :
  let '(m', result, calls) :=
    Manager_connect MikroTikAPIManager_new "10.0.0.1" "admin" "secret"
      (Some 80) false (env_reachable 0) in
  (CallWsGetSystemResource ∉ calls) ∧ getCurrentMethod m' ≠ Some "ws".
Proof.
  pose proof (X2_manager_never_selects_websocket MikroTikAPIManager_new
                "10.0.0.1" "admin" "secret" (Some 80) false (env_reachable 0)
                unauthenticated_new) as H.
  destruct (Manager_connect _ _ _ _ _ _ _) as [[m' result] calls].
  destruct H as (_ & ? & _ & Hm). split; [done|]. by apply Hm.
Defined.

(** ** X3: connect never reports a failure *)

(** X3. No environment makes [connect] return a failure object: whenever
    it settles it either returns an object with [success] set or throws,
    and the only value it ever throws is the ReferenceError raised by the
    second [catch] clause for its use of [wsError]. *)
Theorem X3_connect_returns_success_or_throws_reference_error
    (m : MikroTikAPIManager) (h u pw : string) (pt : option N)
    (useHttps : bool) (env : environment) :
  match (Manager_connect m h u pw pt useHttps env).1.2 with
  | Waiting => True
  | Returned r => success r = true ∧ error r = None
  | Threw e => e = ReferenceError "wsError is not defined"
  end.
Proof.
  pose proof (Manager_connect_failure m h u pw pt useHttps env) as [Ht Hr].
  assert (Herr : ∀ r, (Manager_connect m h u pw pt useHttps env).1.2
                      = Returned r → error r = None).
  { rewrite Manager_connect_unfold.
    assert (Hhttp : ∀ m0 before r,
              (connect_http m0 h u pw pt useHttps env before).1.2 = Returned r
              → error r = None).
    { intros m0 before r. unfold connect_http.
      pose proof (HTTP_connect_not_false (httpApi m0) h u pw (num_or pt 80)
                    useHttps (fetch env 0%nat)) as Hnf.
      destruct (HTTP.connect _ _ _ _ _ _ _) as [a1 [|[]|e]]; simpl in *;
        try done.
      destruct (HTTP.getSystemResource _ _); simpl; try done.
      by intros [= <-]. }
    destruct (ws_attempt _ _ _ _ _ _) as [[w2 [|[]|e]] rest]; cbv zeta;
      [done| |apply Hhttp..].
    destruct (getSystemResource w2 rest) as [[w3 [|info|e]] rest'];
      [done| |apply Hhttp].
    by intros r [= <-]. }
  simpl in Ht, Hr.
  destruct ((Manager_connect m h u pw pt useHttps env).1.2) as [|r|e];
    [done| |by apply Ht].
  split; [by apply Hr|by apply Herr].
Qed.

(** ** X9: a command that is pending when disconnect is called *)

Lemma timers_numbered_step s e : timers_numbered s → timers_numbered (step s e).
Proof.
  intros Hn q t. rewrite step_timers, step_tagCounter.
  pose proof (js_incr_le (tagCounter s)) as Hle.
  pose proof (step_promises_length s e) as Hlen.
  assert (Hold : timers s !! q = Some t →
                 (q < length (promises (step s e)))%nat
                 ∧ ∃ k, t = tag_of k
                        ∧ k ≤ (if allocates s e then js_incr (tagCounter s)
                               else tagCounter s)).
  { intros Hq. destruct (Hn q t Hq) as (Hlt & k & -> & Hk). split; [lia|].
    exists k. split; [done|]. destruct (allocates s e); lia. }
  assert (Hnew : allocates s e = true → q = length (promises s) →
                 (q < length (promises (step s e)))%nat).
  { intros Ha ->. rewrite (step_promises_alloc s e Ha), length_app. simpl. lia. }
  destruct e as [c|c|[r|]|  |c|q'|cmd|h u pw pt ctor| ];
    repeat case_decide; try done;
    try (intros [= <-]; destruct H as [Ha ->]; rewrite Ha;
         split; [by apply Hnew|];
         exists (js_incr (tagCounter s)); split; [done|lia]).
Qed.

Lemma timers_numbered_run s evs : timers_numbered s → timers_numbered (run s evs).
Proof.
  revert s. induction evs as [|e evs IH]; intros s Hn; [done|].
  simpl. apply IH. by apply timers_numbered_step.
Qed.

Lemma owned_step n p s e :
  tagCounter s < 2 ^ 53 → owned n p s → owned n p (step s e).
Proof.
  intros Hc [Htr Hcb Htm]. pose proof Htr as [Hn Hp Ht Hk].
  split.
  - by apply tracked_step.
  - intros t. rewrite step_callbacks.
    destruct e as [c|c|[r|]|  |c|q'|cmd|h u pw pt ctor| ];
      repeat case_decide; try done; try apply Hcb; intros [=]; lia.
  - intros t. rewrite step_timers.
    destruct e as [c|c|[r|]|  |c|q'|cmd|h u pw pt ctor| ];
      repeat case_decide; try done; try apply Htm;
      destruct H as [_ ?]; lia.
Qed.

Lemma owned_run n p s evs :
  counter_exact s evs → owned n p s → owned n p (run s evs).
Proof.
  revert s. induction evs as [|e evs IH]; intros s Hex Ho; [done|].
  simpl. apply IH; [by apply counter_exact_step|].
  apply owned_step; [by eapply counter_exact_below|done].
Qed.

(** Once its tag has left the pending set, a command that was not settled
    stays unsettled. *)
Lemma abandoned_step n p s e :
  tagCounter s < 2 ^ 53 → owned n p s →
  callbacks s !! tag_of n = None → promises s !! p = Some Pending →
  callbacks (step s e) !! tag_of n = None
  ∧ promises (step s e) !! p = Some Pending.
Proof.
  intros Hc [Htr Hcb Htm] Hnone Hp. split.
  - apply not_pending_step; [apply Htr|done..].
  - destruct (step_promises_changed s e p Pending Hp)
      as [?|[_ [(r & -> & Hk & _)|(-> & tg & Hq & Hsome)]]]; [done| |].
    + pose proof (Hcb _ Hk) as Heq. rewrite Heq in Hk. congruence.
    + apply Htm in Hq as ->. rewrite Hnone in Hsome. by destruct Hsome.
Qed.

Lemma abandoned_run n p s evs :
  counter_exact s evs → owned n p s →
  callbacks s !! tag_of n = None → promises s !! p = Some Pending →
  promises (run s evs) !! p = Some Pending.
Proof.
  revert s. induction evs as [|e evs IH]; intros s Hex Ho Hnone Hp; [done|].
  pose proof (counter_exact_below _ _ _ Hex) as Hc.
  destruct (abandoned_step n p s e Hc Ho Hnone Hp) as [Hnone' Hp'].
  simpl. apply IH; [by apply counter_exact_step|by apply owned_step|done..].
Qed.

Lemma sendCommand_owned s c :
  sendable s → tagCounter s < 2 ^ 53 →
  pending_ok s → tags_numbered s → timers_numbered s →
  let '(s1, p) := sendCommand s c in
  tagCounter s1 = tagCounter s + 1 ∧ owned (tagCounter s + 1) p s1.
Proof.
  intros Hs Hc Hok Htn Htm.
  assert (Hfree : ∀ q, timers s !! q ≠ Some (tag_of (tagCounter s + 1))).
  { intros q Hq. destruct (Htm _ _ Hq) as (_ & k & Hk & Hle).
    apply tag_of_inj in Hk. lia. }
  pose proof (sendCommand_tracked s c Hs Hc Hfree) as Hsend.
  revert Hsend. rewrite (sendCommand_sendable s c Hs). cbv zeta.
  rewrite js_incr_below by done.
  intros (_ & _ & _ & Htr). split; [done|]. split; [done| |]; simpl.
  - intros t. rewrite lookup_insert. case_decide; [done|].
    intros Hk. destruct (Hok _ _ Hk) as [Hp _].
    apply lookup_lt_Some in Hp. lia.
  - intros t. rewrite lookup_insert_eq. congruence.
Qed.

(** X9. In a run that started with nothing pending and no timer armed, a
    command that is still unsettled when [disconnect] is called is never
    settled afterwards: neither its reply, nor its 30 s timer, nor anything
    else that happens later resolves or rejects its promise, so its caller
    waits for ever. *)
Theorem X9_command_pending_at_disconnect_never_settles
    (s0 : RouterOSAPI) (cmd : RouterOSCommand) (evs0 evs1 evs2 : list event) :
  callbacks s0 = ∅ → timers s0 = ∅ →
  tagCounter s0
    + N.of_nat (length evs0 + 1 + length evs1 + 1 + length evs2) < 2 ^ 53 →
  let s := run s0 evs0 in
  sendable s →
  let '(s1, p) := sendCommand s cmd in
  await (promises (run s1 evs1)) p = Waiting →
  await (promises (run s1 (evs1 ++ EvDisconnect :: evs2))) p = Waiting.
Proof.
  intros Hk0 Ht0 Hbound s Hs.
  pose proof (run_tagCounter_le s0 evs0) as Hle. fold s in Hle.
  assert (Hok : pending_ok s)
    by (apply pending_ok_run; by apply pending_ok_no_callbacks).
  assert (Htn : tags_numbered s).
  { apply tags_numbered_run. intros t p. by rewrite Hk0, lookup_empty. }
  assert (Htm : timers_numbered s).
  { apply timers_numbered_run. intros q t. by rewrite Ht0, lookup_empty. }
  pose proof (sendCommand_owned s cmd Hs ltac:(lia) Hok Htn Htm) as Hsend.
  destruct (sendCommand s cmd) as [s1 p]. destruct Hsend as [Hcnt Ho].
  intros Hwait.
  assert (Hex1 : counter_exact s1 evs1) by (unfold counter_exact; lia).
  pose proof (owned_run _ _ _ _ Hex1 Ho) as Ho1.
  pose proof (run_tagCounter_le s1 evs1) as Hle1.
  set (s2 := run s1 evs1) in *.
  assert (Hp2 : promises s2 !! p = Some Pending).
  { destruct Ho1 as [[_ Hlt _ _] _ _].
    apply lookup_lt_is_Some in Hlt as [x Hx]. revert Hwait.
    unfold await. rewrite Hx. by destruct x. }
  assert (Hc2 : tagCounter s2 < 2 ^ 53) by lia.
  unfold run. rewrite foldl_app. fold (run s1 evs1). fold s2. simpl.
  fold (run (step s2 EvDisconnect) evs2).
  assert (Hp3 : promises (step s2 EvDisconnect) !! p = Some Pending).
  { destruct (step_promises_changed s2 EvDisconnect p Pending Hp2)
      as [?|[_ [(r & [=] & _)|([=] & _)]]]. done. }
  unfold await.
  rewrite (abandoned_run (tagCounter s + 1) p (step s2 EvDisconnect) evs2);
    [done| |by apply owned_step|by rewrite step_callbacks|done].
  unfold counter_exact. rewrite step_tagCounter. simpl. lia.
Qed.

Lemma X9_witness :
  let '(s1, p) := sendCommand session_open (print_cmd "/interface/print") in
  await (promises
           (run s1 ([EvMessage (Some (reply TData "tag1" JNull None))]
                    ++ EvDisconnect
                    :: [EvMessage (Some (reply TDone "tag1" JNull None));
                        EvCommandTimeout p]))) p = Waiting.
Proof.
  pose proof (X9_command_pending_at_disconnect_never_settles session_open
                (print_cmd "/interface/print") []
                [EvMessage (Some (reply TData "tag1" JNull None))]
                [EvMessage (Some (reply TDone "tag1" JNull None));
                 EvCommandTimeout 0]) as H.
  cbv zeta in H. change (run session_open []) with session_open in H.
  destruct (sendCommand session_open _) as [s1 p] eqn:Hsend.
  vm_compute in Hsend. injection Hsend as <- <-.
  apply H.
  - done.
  - done.
  - by vm_compute.
  - split; [by eexists | done].
  - by vm_compute.
Defined.

(** ** X22: without disconnect, a command settles by its timeout *)

Lemma step_promises_handle s e : promises (step s e) = promises (handle s e).
Proof. by rewrite (promises_dispatcher (step s e)), step_dispatcher. Qed.

Lemma terminal_reply_settles s r p :
  callbacks s !! reply_key r = Some p → is_terminal (type r) = true →
  promises s !! p = Some Pending →
  promises (step s (EvMessage (Some r))) !! p ≠ Some Pending.
Proof.
  intros Hk Hterm Hp. rewrite step_promises_handle. unfold handle.
  rewrite handleMessage_promises, Hk. unfold callback, resolve, reject.
  destruct (type r); try done; by rewrite settle_pending.
Qed.

Lemma timer_settles s p tg :
  timers s !! p = Some tg → callbacks s !! tg = Some p →
  promises s !! p = Some Pending →
  promises (step s (EvCommandTimeout p)) !! p
  = Some (Rejected (Error "Command timeout")).
Proof.
  intros Ht Hk Hp. rewrite step_promises_handle.
  by apply commandTimeout_armed with tg.
Qed.

Lemma in_flight_step n p s e :
  tagCounter s < 2 ^ 53 → owned n p s → e ≠ EvDisconnect →
  in_flight n p s → in_flight n p (step s e).
Proof.
  intros Hc [Htr Hcb Htm] Hne Hif Hpend'. pose proof Htr as [Hn Hp Ht Hk].
  pose proof (no_reallocation n s Hn Hc) as Hfresh.
  assert (Hpend : promises s !! p = Some Pending).
  { apply lookup_lt_is_Some in Hp as [x Hx].
    destruct x as [|v|err]; [done|..];
      rewrite (step_promises_settled s e p _ Hx) in Hpend' by done; done. }
  destruct (Hif Hpend) as [Hcall Htim].
  rewrite step_callbacks, step_timers.
  destruct e as [c|c|[r|]|  |c|q|cmd|h u pw pt ctor| ]; try done;
    repeat case_decide; try done;
    try (exfalso; intuition (congruence || lia); fail).
  - destruct H as [Hkey Hterm]. rewrite Hkey in Hcall.
    by destruct (terminal_reply_settles s r p Hcall Hterm Hpend).
  - subst q. by rewrite (timer_settles s p _ Htim Hcall Hpend) in Hpend'.
  - apply Ht in H. by subst q.
Qed.

Lemma run_promises_not_pending s evs p :
  (p < length (promises s))%nat → promises s !! p ≠ Some Pending →
  promises (run s evs) !! p ≠ Some Pending.
Proof.
  revert s. induction evs as [|e evs IH]; intros s Hlt Hp; [done|].
  simpl. apply IH.
  - pose proof (step_promises_length s e). lia.
  - apply lookup_lt_is_Some in Hlt as [x Hx].
    rewrite (step_promises_settled s e p x Hx); congruence.
Qed.

Lemma settles_by_timer n p s evs :
  counter_exact s evs → owned n p s → in_flight n p s →
  EvDisconnect ∉ evs → EvCommandTimeout p ∈ evs →
  promises (run s evs) !! p ≠ Some Pending.
Proof.
  revert s. induction evs as [|e evs IH]; intros s Hex Ho Hif Hnod Hin.
  { by apply elem_of_nil in Hin. }
  pose proof (counter_exact_below _ _ _ Hex) as Hc.
  apply not_elem_of_cons in Hnod as [Hne Hnod].
  assert (Hlt : (p < length (promises (step s e)))%nat).
  { destruct Ho as [[_ Hp _ _] _ _].
    pose proof (step_promises_length s e). lia. }
  apply elem_of_cons in Hin as [<-|Hin].
  - simpl. apply run_promises_not_pending; [done|].
    intros Hpend'.
    pose proof Ho as [[_ Hp _ _] _ _].
    apply lookup_lt_is_Some in Hp as [x Hx]. destruct x as [|v|err].
    + destruct (Hif Hx) as [Hcall Htim].
      rewrite (timer_settles s p _ Htim Hcall Hx) in Hpend'. done.
    + rewrite (step_promises_settled s _ p _ Hx) in Hpend'; done.
    + rewrite (step_promises_settled s _ p _ Hx) in Hpend'; done.
  - simpl. apply IH; [by apply counter_exact_step|by apply owned_step
                     |by apply in_flight_step|done..].
Qed.

Lemma await_command_waiting_run s p evs :
  (await_command s p evs).1.2 = Waiting →
  await (promises (run s evs)) p = Waiting.
Proof.
  revert s. induction evs as [|e evs IH]; intros s; simpl;
    destruct (await (promises s) p) eqn:Hw; simpl; try done.
  apply IH.
Qed.

(** X22. In a run that started with nothing pending and no timer armed,
    an operation never stays pending past its own 30 s timer as long as
    [disconnect] is not called: whenever the events it waits through
    contain that timer, the operation has an outcome. *)
Theorem X22_operation_settles_by_its_timeout {A : Type}
    (s0 : RouterOSAPI) (cmd : RouterOSCommand)
    (k : async RouterOSResponse → async A) (evs0 evs : list event) :
  callbacks s0 = ∅ → timers s0 = ∅ →
  tagCounter s0 + N.of_nat (length evs0 + 1 + length evs) < 2 ^ 53 →
  let s := run s0 evs0 in
  sendable s →
  EvDisconnect ∉ evs →
  EvCommandTimeout (length (promises s)) ∈ evs →
  ∃ r, r ≠ Waiting ∧ (run_op cmd k s evs).1.2 = k r.
Proof.
  intros Hk0 Ht0 Hbound s Hs Hnod Hin.
  pose proof (run_tagCounter_le s0 evs0) as Hle. fold s in Hle.
  assert (Hok : pending_ok s)
    by (apply pending_ok_run; by apply pending_ok_no_callbacks).
  assert (Htn : tags_numbered s).
  { apply tags_numbered_run. intros t p. by rewrite Hk0, lookup_empty. }
  assert (Htm : timers_numbered s).
  { apply timers_numbered_run. intros q t. by rewrite Ht0, lookup_empty. }
  pose proof (sendCommand_owned s cmd Hs ltac:(lia) Hok Htn Htm) as Hsend.
  pose proof (sendCommand_promise_id s cmd) as Hid.
  assert (Hfl : in_flight (tagCounter s + 1) (sendCommand s cmd).2
                  (sendCommand s cmd).1).
  { rewrite (sendCommand_sendable s cmd Hs). cbv zeta.
    rewrite js_incr_below by lia. intros _. simpl.
    by rewrite !lookup_insert_eq. }
  unfold run_op. destruct (sendCommand s cmd) as [s1 p].
  simpl in Hid, Hfl. subst p. destruct Hsend as [Hcnt Ho].
  assert (Hex : counter_exact s1 evs) by (unfold counter_exact; lia).
  pose proof (settles_by_timer _ _ _ _ Hex Ho Hfl Hnod Hin) as Hset.
  pose proof (await_command_waiting_run s1 (length (promises s)) evs) as Hw.
  destruct (await_command s1 (length (promises s)) evs) as [[s2 r] rest].
  simpl in Hw. exists r. split; [|done].
  intros ->. specialize (Hw eq_refl). apply Hset.
  assert (Hlt : (length (promises s) < length (promises (run s1 evs)))%nat).
  { destruct (owned_run _ _ _ _ Hex Ho) as [[_ Hp _ _] _ _]. done. }
  apply lookup_lt_is_Some in Hlt as [x Hx]. revert Hw. unfold await.
  rewrite Hx. by destruct x.
Qed.

Lemma X22_witness :
  ∃ r, r ≠ Waiting
       ∧ (getInterfaces session_open
            [EvMessage (Some (reply TData "tag1" JNull None));
             EvCommandTimeout 0]).1.2 = list_k r.
Proof.
  apply (X22_operation_settles_by_its_timeout session_open
           (print_cmd "/interface/print") list_k []
           [EvMessage (Some (reply TData "tag1" JNull None));
            EvCommandTimeout 0]).
  - done.
  - done.
  - by vm_compute.
  - split; [by eexists | done].
  - not_in_calls.
  - right. by left.
Defined.

(** ** X10: what connect answers on a session that has not authenticated *)

Lemma handle_logins s e :
  (∀ c, e ≠ EvOpen c) → logins (handle s e) = logins s.
Proof.
  intros Hne. destruct e as [c|c|d|  |c|q|cmd|h u pw pt ctor| ]; unfold handle.
  - by destruct (Hne c).
  - done.
  - apply handleMessage_logins.
  - done.
  - by destruct (connected s).
  - apply commandTimeout_logins.
  - unfold sendCommand. by destruct (_ || _).
  - unfold connect. by destruct ctor.
  - unfold disconnect. by destruct (ws s).
Qed.

Lemma step_open_idle s c :
  idle s → (c < length (connects s))%nat →
  connects (step s (EvOpen c)) = resolve c false (connects s)
  ∧ logins (step s (EvOpen c)) = [].
Proof.
  intros [Hu Hl] Hc. unfold step, handle.
  rewrite bool_decide_eq_true_2 by done. unfold onopen.
  rewrite (sendCommand_not_sendable _ _ (unauthenticated_not_sendable _ Hu)).
  unfold resume_logins. simpl. rewrite Hl. simpl.
  unfold finish_login. simpl. rewrite await_new. by simpl.
Qed.

Lemma step_idle_other s e :
  idle s → (∀ c, e = EvOpen c → (length (connects s) ≤ c)%nat) →
  step s e = handle s e.
Proof.
  intros [Hu Hl] Hopen. unfold step. apply resume_logins_none.
  destruct e as [c| | | | | | | | ]; [|by rewrite handle_logins by done..].
  unfold handle. rewrite bool_decide_eq_false_2; [done|].
  specialize (Hopen c eq_refl). lia.
Qed.

Lemma idle_step s e : idle s → idle (step s e).
Proof.
  intros Hi. split; [apply unauthenticated_step, Hi|].
  destruct e as [c| | | | | | | | ];
    [|rewrite step_idle_other, handle_logins by done; apply Hi..].
  destruct (decide (c < length (connects s))%nat) as [Hc|Hc].
  - by apply step_open_idle.
  - rewrite step_idle_other; [|done|intros ? [= <-]; lia].
    unfold handle. rewrite bool_decide_eq_false_2 by done. apply Hi.
Qed.

Lemma idle_run s evs : idle s → idle (run s evs).
Proof.
  revert s. induction evs as [|e evs IH]; intros s Hi; [done|].
  simpl. apply IH. by apply idle_step.
Qed.

Lemma idle_new : idle RouterOSAPI_new.
Proof. split; [apply unauthenticated_new|done]. Qed.

Lemma connect_outcome_cons c e evs :
  connect_outcome c (e :: evs) =
    match connect_outcome c [e] with
    | Waiting => connect_outcome c evs
    | r => r
    end.
Proof. destruct e; simpl; try done; by case_decide. Qed.

Lemma step_idle_connects s e c :
  idle s → connects s !! c = Some Pending →
  connects (step s e) !! c =
    Some (match connect_outcome c [e] with
          | Waiting => Pending
          | Returned b => Fulfilled b
          | Threw err => Rejected err
          end).
Proof.
  intros Hi Hc. pose proof (lookup_lt_Some _ _ _ Hc) as Hlt.
  pose proof Hi as [[Hconn Hk _ _] Hl].
  destruct e as [c'|c'|d|  |c'|q|cmd|h u pw pt ctor| ];
    [|rewrite step_idle_other by done; unfold handle; simpl..].
  - destruct (decide (c' < length (connects s))%nat) as [Hc'|Hc'].
    + destruct (step_open_idle s c' Hi Hc') as [-> _]. simpl.
      case_decide as Heq.
      * subst. unfold resolve. by rewrite settle_pending.
      * unfold resolve. by rewrite settle_other.
    + rewrite step_idle_other; [|done|intros ? [= <-]; lia].
      unfold handle. rewrite bool_decide_eq_false_2 by done. simpl.
      case_decide; [|done]. subst. lia.
  - case_decide as Heq.
    + subst. unfold reject. by rewrite settle_pending.
    + unfold reject. by rewrite settle_other.
  - destruct d as [r|]; [|done].
    rewrite handleMessage_unknown; [done|]. by rewrite Hk.
  - done.
  - rewrite Hconn. simpl. case_decide as Heq.
    + subst. unfold reject. by rewrite settle_pending.
    + unfold reject. by rewrite settle_other.
  - unfold commandTimeout. destruct (timers s !! q); [|done].
    simpl. rewrite Hk, lookup_empty.
    by rewrite bool_decide_eq_false_2 by (by intros [? ?]).
  - unfold sendCommand. by destruct (_ || _).
  - unfold connect. destruct ctor; simpl; by rewrite lookup_app_l.
  - unfold disconnect. by destruct (ws s).
Qed.

Lemma await_connect_settled s c evs :
  await (connects s) c ≠ Waiting →
  await_connect s c evs = (s, await (connects s) c, evs).
Proof. intros Hw. destruct evs; simpl; by destruct (await (connects s) c). Qed.

Lemma await_connect_idle s c evs :
  idle s → connects s !! c = Some Pending →
  (await_connect s c evs).1.2 = connect_outcome c evs.
Proof.
  revert s. induction evs as [|e evs IH]; intros s Hi Hc.
  - simpl. unfold await. by rewrite Hc.
  - cbn [await_connect]. unfold await at 1. rewrite Hc.
    rewrite connect_outcome_cons.
    pose proof (step_idle_connects s e c Hi Hc) as Hstep.
    destruct (connect_outcome c [e]) as [|b|err] eqn:Hout.
    + apply IH; [by apply idle_step|done].
    + rewrite await_connect_settled; unfold await; by rewrite Hstep.
    + rewrite await_connect_settled; unfold await; by rewrite Hstep.
Qed.


(** * The HTTP client *)




(** * The delegating operations of the manager *)

Lemma run_op_bool_k_no_throw cmd s evs e :
  (run_op cmd bool_k s evs).1.2 ≠ Threw e.
Proof.
  unfold run_op. destruct (sendCommand s cmd) as [s1 p].
  destruct (await_command s1 p evs) as [[s2 r] rest]. simpl.
  by destruct r.
Qed.

Lemma HTTP_bool_k_no_throw x e : HTTP_bool_k x ≠ Threw e.
Proof. by destruct x. Qed.

Lemma Manager_op_throws {A} wsOp httpOp m env (e : js_error) :
  (∀ s evs, (wsOp s evs).1.2 ≠ Threw e) →
  (∀ a f, httpOp a f ≠ Threw e) →
  (Manager_op (A := A) wsOp httpOp m env).2 = Threw e →
  currentApi m = None ∧ e = NoActiveApi.
Proof.
  intros Hws Hhttp. unfold Manager_op.
  destruct (currentApi m) as [[]|]; simpl.
  - specialize (Hws (wsApi m) (ws_events env)).
    by destruct (wsOp (wsApi m) (ws_events env)) as [[w r] rest].
  - intros H. by apply Hhttp in H.
  - by intros [= <-].
Qed.

(** X13. While no method is selected, as after [disconnect], each of the
    seven operations of the manager throws 'No active API connection' and
    leaves the manager as it is.  The three mutating operations throw in no
    other case: once a method is selected they answer with a boolean
    whatever the router does. *)
Theorem X13_manager_operations_without_active_method
    (m : MikroTikAPIManager) (env : environment) (name pw id : string)
    (profile : option string) :
  let m0 := Manager_disconnect m in
  Manager_isConnected m0 = false
  ∧ Manager_getSystemResource m0 env = (m0, Threw NoActiveApi)
  ∧ Manager_getInterfaces m0 env = (m0, Threw NoActiveApi)
  ∧ Manager_getHotspotActive m0 env = (m0, Threw NoActiveApi)
  ∧ Manager_getHotspotUsers m0 env = (m0, Threw NoActiveApi)
  ∧ Manager_addHotspotUser name pw profile m0 env = (m0, Threw NoActiveApi)
  ∧ Manager_removeHotspotUser id m0 env = (m0, Threw NoActiveApi)
  ∧ Manager_disconnectActiveUser id m0 env = (m0, Threw NoActiveApi)
  ∧ (∀ e, (Manager_addHotspotUser name pw profile m env).2 = Threw e
          ∨ (Manager_removeHotspotUser id m env).2 = Threw e
          ∨ (Manager_disconnectActiveUser id m env).2 = Threw e →
          currentApi m = None ∧ e = NoActiveApi).
Proof.
  repeat split; try done.
  all: destruct H as [H|[H|H]]; revert H;
    unfold Manager_addHotspotUser, Manager_removeHotspotUser,
      Manager_disconnectActiveUser; intros H;
    apply Manager_op_throws in H; try apply H;
    try (intros; apply run_op_bool_k_no_throw);
    intros; apply HTTP_bool_k_no_throw.
Qed.

Lemma X13_witness :
  Manager_isConnected (Manager_disconnect manager_open) = false
  ∧ currentApi MikroTikAPIManager_new = None
  ∧ NoActiveApi = NoActiveApi.
Proof.
  split.
  - apply (X13_manager_operations_without_active_method manager_open
             (env_reachable 0) "guest" "secret" "*1" None).
  - apply (X13_manager_operations_without_active_method
             MikroTikAPIManager_new (env_reachable 0) "guest" "secret" "*1"
             None).
    right. left. reflexivity.
Defined.

(** * What connect leaves behind *)

Lemma connect_http_manager m0 h u pw pt useHttps env before :
  (connect_http m0 h u pw pt useHttps env before).1.1 =
    let '(a1, conn) :=
      HTTP.connect (httpApi m0) h u pw (num_or pt 80) useHttps
        (fetch env 0%nat) in
    mkManager (wsApi m0) a1
      (match conn with Returned true => Some ApiHttp | _ => currentApi m0 end)
      (config m0).
Proof.
  unfold connect_http.
  destruct (HTTP.connect _ _ _ _ _ _ _) as [a1 [|[]|e]]; try done.
  by destruct (HTTP.getSystemResource _ _).
Qed.

(** A [connect] that throws went through the HTTP fallback. *)
Lemma Manager_connect_threw m h u pw pt useHttps env e :
  (Manager_connect m h u pw pt useHttps env).1.2 = Threw e →
  ∃ w cur before,
    Manager_connect m h u pw pt useHttps env =
      connect_http
        (mkManager w (httpApi m) cur (Some (config_of h u pw pt useHttps)))
        h u pw pt useHttps env before
    ∧ (cur = currentApi m
       ∨ cur = Some ApiWs ∧ (ws_attempt m h u pw pt env).1.2 = Returned true).
Proof.
  rewrite Manager_connect_unfold.
  destruct (ws_attempt m h u pw pt env) as [[w2 [|[]|e']] rest] eqn:Hw;
    cbv zeta; [done| | |].
  - destruct (getSystemResource w2 rest) as [[w3 [|info|e']] rest'] eqn:Hg;
      [done..|].
    intros _. eexists _, _, _. split; [done|]. by right.
  - intros _. eexists _, _, _. split; [done|]. by left.
  - intros _. eexists _, _, _. split; [done|]. by left.
Qed.

(** X14. When the HTTP connect succeeds and the probe that follows it
    fails, [connect] throws, and yet it has already selected the HTTP
    method: the manager reports connected after a [connect] that was
    rejected. *)
Theorem X14_connect_throws_and_leaves_manager_connected
    (m : MikroTikAPIManager) (h u pw : string) (pt : option N)
    (useHttps : bool) (env : environment) (e : js_error) :
  (HTTP.connect (httpApi m) h u pw (num_or pt 80) useHttps
     (fetch env 0%nat)).2 = Returned true →
  (Manager_connect m h u pw pt useHttps env).1.2 = Threw e →
  let m' := (Manager_connect m h u pw pt useHttps env).1.1 in
  Manager_isConnected m' = true
  ∧ getCurrentMethod m' = Some "http"
  ∧ ∃ cause, HTTP.getSystemResource (httpApi m') (fetch env 1%nat)
             = Threw cause.
Proof.
  intros Hconn Hthrew.
  destruct (Manager_connect_threw _ _ _ _ _ _ _ _ Hthrew)
    as (w & cur & before & Heq & _).
  rewrite Heq in Hthrew |- *. clear Heq. cbv zeta.
  rewrite connect_http_manager. revert Hthrew. unfold connect_http.
  cbn [httpApi wsApi currentApi config].
  destruct (HTTP.connect _ _ _ _ _ _ _) as [a1 conn]. simpl in Hconn.
  subst conn. cbn [httpApi wsApi currentApi config].
  destruct (HTTP.getSystemResource a1 (fetch env 1%nat)) as [|info|cause];
    [done..|].
  intros _. repeat split. by exists cause.
Qed.

Lemma X14_witness :
  let m' := (Manager_connect MikroTikAPIManager_new "10.0.0.1" "admin"
               "secret" (Some 80) false (env_probe_fails 0)).1.1 in
  Manager_isConnected m' = true ∧ getCurrentMethod m' = Some "http".
Proof.
  pose proof (X14_connect_throws_and_leaves_manager_connected
                MikroTikAPIManager_new "10.0.0.1" "admin" "secret" (Some 80)
                false (env_probe_fails 0)
                (ReferenceError "wsError is not defined")) as H.
  destruct H as (? & ? & _); [by vm_compute..|done].
Defined.

(** On a manager whose WebSocket session has not authenticated, a [connect]
    that throws went through the HTTP fallback with the current method
    untouched. *)
Lemma Manager_connect_unauth m h u pw pt useHttps env :
  unauthenticated (wsApi m) →
  let w := (ws_attempt m h u pw pt env).1.1 in
  let m' := (Manager_connect m h u pw pt useHttps env).1.1 in
  wsApi m' = w
  ∧ config m' = Some (config_of h u pw pt useHttps)
  ∧ (currentApi m' = Some ApiHttp ∨ currentApi m' = currentApi m)
  ∧ ((Manager_connect m h u pw pt useHttps env).1.2 ≠ Waiting →
     httpApi m' = HTTP.mkApi (base_url h (num_or pt 80) useHttps) u pw
                    (HTTP.sessionId (httpApi m))).
Proof.
  intros Hu. rewrite Manager_connect_unfold.
  assert (Hnot : (ws_attempt m h u pw pt env).1.2 ≠ Returned true).
  { unfold ws_attempt.
    assert (Hu1 : unauthenticated
                    (connect (wsApi m) h u pw (num_or pt 8728) (ws_ctor env)).1)
      by apply (unauthenticated_handle _ (EvConnect _ _ _ _ _) Hu).
    destruct (connect _ _ _ _ _ _) as [w1 c].
    apply (await_connect_unauthenticated w1 c (ws_events env) Hu1). }
  destruct (ws_attempt m h u pw pt env) as [[w2 [|[]|e]] rest];
    simpl in Hnot; cbv zeta; [|done| |].
  - repeat split; try done. by right.
  - rewrite connect_http_manager. cbn [httpApi wsApi currentApi config].
    unfold HTTP.connect. simpl. repeat split.
    destruct (fetch env 0%nat _) as [|[] ? ? ?]; simpl; auto.
  - rewrite connect_http_manager. cbn [httpApi wsApi currentApi config].
    unfold HTTP.connect. simpl. repeat split.
    destruct (fetch env 0%nat _) as [|[] ? ? ?]; simpl; auto.
Qed.

Lemma HTTP_removeHotspotUser_request a id f :
  HTTP_removeHotspotUser a id f
  = Returned (answered_ok (f (delete_request a ("/ip/hotspot/user/" +:+ id)))).
Proof.
  unfold HTTP_removeHotspotUser, HTTP_bool_k, HTTP.makeRequest, delete_request.
  simpl. by destruct (f _) as [|[] ? ? []].
Qed.

(** X15. A manager that has selected the HTTP method and whose WebSocket
    session has not authenticated is asked to connect somewhere else, and
    the attempt settles.  Whether it succeeds or throws, the manager still
    reports connected, its configuration is the new one, and its HTTP
    client now addresses the new host with the new credentials: the next
    operation, here the removal of a user, is sent there. *)
Theorem X15_reconnect_retargets_the_selected_client
    (m : MikroTikAPIManager) (h u pw : string) (pt : option N)
    (useHttps : bool) (env env' : environment) (id : string) :
  currentApi m = Some ApiHttp →
  unauthenticated (wsApi m) →
  (Manager_connect m h u pw pt useHttps env).1.2 ≠ Waiting →
  let m' := (Manager_connect m h u pw pt useHttps env).1.1 in
  Manager_isConnected m' = true
  ∧ config m' = Some (config_of h u pw pt useHttps)
  ∧ (Manager_removeHotspotUser id m' env').2
    = Returned
        (answered_ok
           (fetch env' 0%nat
              {| HTTP.url := base_url h (num_or pt 80) useHttps
                               +:+ "/ip/hotspot/user/" +:+ id;
                 HTTP.method := "DELETE";
                 HTTP.credentials := (u, pw);
                 HTTP.body := None |})).
Proof.
  intros Hcur Hu Hsettled.
  destruct (Manager_connect_unauth m h u pw pt useHttps env Hu)
    as (_ & Hcfg & Hcur' & Hhttp).
  specialize (Hhttp Hsettled). cbv zeta.
  set (m' := (Manager_connect m h u pw pt useHttps env).1.1) in *.
  assert (Hc : currentApi m' = Some ApiHttp).
  { destruct Hcur' as [?|Heq]; [done|]. by rewrite Heq. }
  split; [|split; [done|]].
  - unfold Manager_isConnected. by rewrite Hc.
  - unfold Manager_removeHotspotUser, Manager_op. rewrite Hc. simpl.
    rewrite HTTP_removeHotspotUser_request, Hhttp. done.
Qed.

Lemma X15_witness :
  let m1 := (Manager_connect MikroTikAPIManager_new "10.0.0.1" "admin"
               "secret" (Some 80) false (env_reachable 0)).1.1 in
  let '(m2, result, _) :=
    Manager_connect m1 "10.0.0.2" "admin" "wrong" (Some 80) false
      (env_reachable 1) in
  result = Threw (ReferenceError "wsError is not defined")
  ∧ Manager_isConnected m2 = true
  ∧ (Manager_removeHotspotUser "*1" m2 (env_reachable 2)).2 = Returned false.
Proof.
  pose proof (X15_reconnect_retargets_the_selected_client
                (Manager_connect MikroTikAPIManager_new "10.0.0.1" "admin"
                   "secret" (Some 80) false (env_reachable 0)).1.1
                "10.0.0.2" "admin" "wrong" (Some 80) false
                (env_reachable 1) (env_reachable 2) "*1") as H.
  cbv zeta in *.
  destruct (Manager_connect _ "10.0.0.2" _ _ _ _ _) as [[m2 result] calls]
    eqn:Hconn.
  assert (Hres : result = Threw (ReferenceError "wsError is not defined")).
  { vm_compute in Hconn. by injection Hconn as _ <- _. }
  split; [done|]. cbn [fst snd] in H.
  destruct H as (Hc & _ & Hrm).
  - by vm_compute.
  - apply (unauthenticated_run RouterOSAPI_new
             [EvConnect "10.0.0.1" "admin" "secret" 80 None; EvOpen 0]
             unauthenticated_new).
  - by rewrite Hres.
  - split; [done|]. rewrite Hrm. by vm_compute.
Defined.

(** ** X16: the socket that connect opened *)

Lemma kept_open_refl s : kept_open s s.
Proof.
  split; [done|]. exists []. split; [by rewrite app_nil_r|].
  apply not_elem_of_nil.
Qed.

Lemma kept_open_trans s1 s2 s3 :
  kept_open s1 s2 → kept_open s2 s3 → kept_open s1 s3.
Proof.
  intros [Hw1 (l1 & Hio1 & Hn1)] [Hw2 (l2 & Hio2 & Hn2)].
  split; [congruence|]. exists (l1 ++ l2).
  split; [by rewrite Hio2, Hio1, app_assoc|].
  intros [?|?]%elem_of_app; auto.
Qed.

Lemma kept_open_same s s' : ws s' = ws s → io s' = io s → kept_open s s'.
Proof.
  intros Hw Hio. split; [done|]. exists [].
  split; [by rewrite app_nil_r|]. apply not_elem_of_nil.
Qed.

Lemma finish_login_kept s pc : kept_open s (finish_login s pc).
Proof.
  apply kept_open_same; unfold finish_login; by destruct (login_k _).
Qed.

Lemma resume_logins_kept s : kept_open s (resume_logins s).
Proof.
  unfold resume_logins.
  assert (H0 : kept_open s (set_logins [] s)) by (by apply kept_open_same).
  revert H0. generalize (set_logins [] s).
  induction (logins s) as [|pc l IH]; intros s0 H0; [done|].
  simpl. apply IH. eapply kept_open_trans; [done|apply finish_login_kept].
Qed.

Lemma sendCommand_kept s c : kept_open s (sendCommand s c).1.
Proof.
  unfold sendCommand. destruct (_ || _); simpl.
  - by apply kept_open_same.
  - split; [done|]. eexists [_]. split; [done|]. not_in_calls.
Qed.

Lemma handle_kept s e : socket_event e = true → kept_open s (handle s e).
Proof.
  destruct e as [c|c|[r|]|  |c|q|cmd|h u pw pt ctor| ]; try done; intros _;
    unfold handle.
  - case_bool_decide; [|apply kept_open_refl]. unfold onopen.
    pose proof (sendCommand_kept s (loginCommand s)) as Hsend.
    destruct (sendCommand s (loginCommand s)) as [s1 p].
    eapply kept_open_trans; [exact Hsend|]. by apply kept_open_same.
  - by apply kept_open_same.
  - unfold handleMessage. destruct (callbacks s !! _); [|apply kept_open_refl].
    apply kept_open_same; by destruct (is_terminal _).
  - split; [done|]. eexists [_]. split; [done|]. not_in_calls.
  - by apply kept_open_same.
  - apply kept_open_same; by destruct (negb _).
  - unfold commandTimeout. destruct (timers s !! q); [|apply kept_open_refl].
    apply kept_open_same; simpl; by case_bool_decide.
Qed.

Lemma step_kept s e : socket_event e = true → kept_open s (step s e).
Proof.
  intros He. eapply kept_open_trans; [by apply handle_kept|].
  apply resume_logins_kept.
Qed.

Lemma await_connect_kept s c evs :
  forallb socket_event evs = true → kept_open s (await_connect s c evs).1.1.
Proof.
  revert s. induction evs as [|e evs IH]; intros s Hall; simpl.
  - destruct (await (connects s) c); apply kept_open_refl.
  - apply andb_prop in Hall as [He Hall].
    destruct (await (connects s) c); try apply kept_open_refl.
    eapply kept_open_trans; [by apply step_kept|by apply IH].
Qed.

(** X16. On a manager whose WebSocket session has not authenticated and
    whose method is not ws, every [connect] opens a WebSocket and nothing
    closes it: once [connect] is over and [disconnect] has been called, the
    session still holds the socket, and [close] was never called on it. *)
Theorem X16_disconnect_leaves_the_websocket_open
    (m : MikroTikAPIManager) (h u pw : string) (pt : option N)
    (useHttps : bool) (env : environment) :
  unauthenticated (wsApi m) →
  currentApi m ≠ Some ApiWs →
  ws_ctor env = None →
  forallb socket_event (ws_events env) = true →
  let m' := Manager_disconnect (Manager_connect m h u pw pt useHttps env).1.1 in
  let url := "ws://" +:+ h +:+ ":" +:+ pretty (num_or pt 8728 + 1) in
  getCurrentMethod m' = None
  ∧ ws (wsApi m') = Some url
  ∧ ∃ more, io (wsApi m') = io (wsApi m) ++ WsNew url :: more
            ∧ WsCloseCall ∉ more.
Proof.
  intros Hu Hcur Hctor Hall.
  destruct (Manager_connect_unauth m h u pw pt useHttps env Hu)
    as (Hw & _ & Hcur' & _).
  cbv zeta. unfold Manager_disconnect.
  set (m1 := (Manager_connect m h u pw pt useHttps env).1.1) in *.
  assert (Hnows : currentApi m1 ≠ Some ApiWs).
  { destruct Hcur' as [Heq|Heq]; rewrite Heq; [done|exact Hcur]. }
  split; [done|].
  assert (Heq : wsApi
                  (mkManager (match currentApi m1 with
                              | Some ApiWs => disconnect (wsApi m1)
                              | _ => wsApi m1
                              end) (httpApi m1) None (config m1))
                = wsApi m1) by (by destruct (currentApi m1) as [[]|]).
  rewrite Heq, Hw. unfold ws_attempt, connect. rewrite Hctor.
  match goal with
  | |- context [await_connect ?s1 ?c ?evs] =>
      destruct (await_connect_kept s1 c evs Hall) as [Hws (more & Hio & Hno)]
  end.
  simpl in Hws, Hio. split; [done|].
  exists more. split; [|done]. etrans; [exact Hio|]. by rewrite <- app_assoc.
Qed.

Lemma X16_witness :
  let m' := Manager_disconnect
              (Manager_connect MikroTikAPIManager_new "10.0.0.1" "admin"
                 "secret" (Some 80) false (env_reachable 0)).1.1 in
  ws (wsApi m') = Some "ws://10.0.0.1:81"
  ∧ WsCloseCall ∉ io (wsApi m').
Proof.
  pose proof (X16_disconnect_leaves_the_websocket_open MikroTikAPIManager_new
                "10.0.0.1" "admin" "secret" (Some 80) false (env_reachable 0)
                unauthenticated_new) as H.
  destruct H as (_ & Hws & more & Hio & Hno); [done..|].
  cbv zeta. split; [exact Hws|]. rewrite Hio. simpl.
  intros [[=]|?]%elem_of_cons. done.
Defined.

(** * The message sendCommand puts on the wire *)

Lemma obj_get_obj_set k k' v o :
  obj_get k (obj_set k' v o) = if String.eqb k k' then Some v else obj_get k o.
Proof.
  induction o as [|[k0 v0] o IH]; simpl.
  - by destruct (String.eqb k k').
  - destruct (String.eqb k' k0) eqn:E0; simpl.
    + apply String.eqb_eq in E0 as ->. by destruct (String.eqb k k0).
    + rewrite IH. destruct (String.eqb k k0) eqn:E1; [|done].
      apply String.eqb_eq in E1 as ->.
      destruct (String.eqb k0 k') eqn:E2; [|done].
      apply String.eqb_eq in E2 as ->. by rewrite String.eqb_refl in E0.
Qed.

Lemma obj_get_spread k args o :
  obj_get k (foldl (λ o kv, obj_set kv.1 kv.2 o) o args) =
    match last_binding k args with
    | Some v => Some v
    | None => obj_get k o
    end.
Proof.
  revert o. induction args as [|[k' v'] args IH]; intros o; simpl; [done|].
  rewrite IH, obj_get_obj_set.
  destruct (last_binding k args); [done|]. by destruct (String.eqb k k').
Qed.

(** X17. In the object [sendCommand] sends, every property has the value
    the last argument of that name gives it, and otherwise the value of the
    [command] or [tag] property built before the spread.  An argument
    named [tag] or [command] would thus replace the allocated tag or the
    command word; none of the commands the class builds has one, so each
    goes out with its own tag and command. *)
Theorem X17_wire_message_properties
    (c : RouterOSCommand) (tg k : string) :
  obj_get k (wire_message c tg) =
    match last_binding k (default [] (arguments c)) with
    | Some v => Some v
    | None => obj_get k [("command", command c); ("tag", tg)]
    end
  ∧ ∀ (s : RouterOSAPI) (path name pw id : string) (profile : option string),
      Forall (λ c', obj_get "tag" (wire_message c' tg) = Some tg
                    ∧ obj_get "command" (wire_message c' tg)
                      = Some (command c'))
        [loginCommand s; print_cmd path; addHotspotUser_cmd name pw profile;
         removeHotspotUser_cmd id; disconnectActiveUser_cmd id].
Proof.
  split; [apply obj_get_spread|].
  intros s path name pw id profile.
  repeat constructor; unfold wire_message; by rewrite obj_get_spread.
Qed.

(** * parseUptimeToSeconds *)

Lemma pretty_N_char_digit d :
  d < 10 →
  is_digit (pretty_N_char d) = true ∧ digit_value (pretty_N_char d) = d.
Proof.
  intros Hd.
  assert (d = 0 ∨ d = 1 ∨ d = 2 ∨ d = 3 ∨ d = 4 ∨ d = 5 ∨ d = 6 ∨ d = 7
          ∨ d = 8 ∨ d = 9) as Hcases by lia.
  repeat destruct Hcases as [->|Hcases]; try subst d; by vm_compute.
Qed.

Lemma pretty_N_go_app x s t : pretty_N_go x s +:+ t = pretty_N_go x (s +:+ t).
Proof.
  revert s. induction (N.lt_wf_0 x) as [x _ IH]; intros s.
  assert (x = 0 ∨ 0 < x) as [->|Hx] by lia; [by rewrite !pretty_N_go_0|].
  rewrite (pretty_N_go_step x s), (pretty_N_go_step x (s +:+ t)) by done.
  rewrite IH; [done|].
  by apply N.div_lt.
Qed.

(** Scanning the decimal digits of [x]. *)
Lemma uptime_scan_digits x :
  0 < x → ∀ acc s, ∃ k,
    uptime_scan acc (pretty_N_go x s)
    = uptime_scan (Some (default 0 acc * 10 ^ k + x)) s.
Proof.
  induction (N.lt_wf_0 x) as [x _ IH]; intros Hx acc s.
  rewrite pretty_N_go_step by done.
  destruct (pretty_N_char_digit (x `mod` 10)) as [Hdig Hval];
    [by apply N.mod_lt|].
  pose proof (N.div_mod x 10 ltac:(done)) as Hdm.
  pose proof (N.div_lt x 10 Hx ltac:(done)) as Hlt.
  revert Hdm Hlt Hdig Hval.
  generalize (x `mod` 10). generalize (x `div` 10). intros q r Hdm Hlt Hdig Hval.
  destruct (N.eq_0_gt_0_cases q) as [H0|Hpos].
  - rewrite H0, pretty_N_go_0. exists 1. simpl. rewrite Hdig, Hval.
    f_equal. f_equal. rewrite N.pow_1_r. lia.
  - destruct (IH q Hlt Hpos acc (String (pretty_N_char r) s)) as [k ->].
    exists (k + 1). simpl. rewrite Hdig, Hval. f_equal. f_equal.
    rewrite N.pow_add_r, N.pow_1_r. lia.
Qed.

Lemma uptime_scan_number (n : N) c rest :
  is_digit c = false →
  uptime_scan None (pretty n +:+ String c rest) =
    match unit_seconds c with
    | Some seconds => n * seconds + uptime_scan None rest
    | None => uptime_scan None rest
    end.
Proof.
  intros Hc. unfold pretty, pretty_N. case_decide as Hn.
  - subst. simpl. rewrite Hc. by destruct (unit_seconds c).
  - rewrite pretty_N_go_app. change ("" +:+ String c rest) with (String c rest).
    destruct (uptime_scan_digits n ltac:(lia) None (String c rest)) as [k ->].
    simpl. rewrite Hc. by destruct (unit_seconds c).
Qed.

Lemma uptime_scan_bare (n : N) : uptime_scan None (pretty n) = 0.
Proof.
  unfold pretty, pretty_N. case_decide as Hn; [done|].
  by destruct (uptime_scan_digits n ltac:(lia) None "") as [k ->].
Qed.

(** X18. Within the range where JavaScript numbers are exact, a number
    written in decimal and directly followed by a character that is not a
    digit adds the number times 86400, 3600, 60 or 1 when the character is
    d, h, m or s, and nothing for any other character; what follows is
    parsed on its own. *)
Theorem X18_parseUptimeToSeconds_token
    (n : N) (c : Ascii.ascii) (rest : string) :
  is_digit c = false →
  n * 86400 + parseUptimeToSeconds rest < 2 ^ 53 →
  parseUptimeToSeconds (pretty n +:+ String c rest) =
    (if Ascii.eqb c "d" then n * 86400
     else if Ascii.eqb c "h" then n * 3600
     else if Ascii.eqb c "m" then n * 60
     else if Ascii.eqb c "s" then n
     else 0) + parseUptimeToSeconds rest.
Proof.
  intros Hc _. unfold parseUptimeToSeconds.
  rewrite (uptime_scan_number n c rest Hc). unfold unit_seconds.
  repeat (destruct (Ascii.eqb c _); [f_equal; lia|]). done.
Qed.

Lemma X18_witness :
  parseUptimeToSeconds (pretty 5 +:+ String "h" " 30m") = 5 * 3600 + 1800.
Proof.
  rewrite (X18_parseUptimeToSeconds_token 5 "h" " 30m"); by vm_compute.
Defined.

(** X19. An uptime in the form RouterOS prints, weeks, days, hours, minutes
    and seconds, is parsed without its weeks: the result is the days,
    hours, minutes and seconds only.  A number that carries no unit is
    parsed as zero. *)
Theorem X19_parseUptimeToSeconds_drops_weeks (w d h m s : N) :
  d * 86400 + h * 3600 + m * 60 + s < 2 ^ 53 →
  parseUptimeToSeconds
    (pretty w +:+ "w" +:+ pretty d +:+ "d" +:+ pretty h +:+ "h"
       +:+ pretty m +:+ "m" +:+ pretty s +:+ "s")
  = d * 86400 + h * 3600 + m * 60 + s
  ∧ parseUptimeToSeconds (pretty s) = 0.
Proof.
  intros _. split; [|apply uptime_scan_bare]. unfold parseUptimeToSeconds.
  change ("w" +:+ ?x) with (String "w" x).
  rewrite (uptime_scan_number w "w") by done. simpl unit_seconds. cbv iota.
  change ("d" +:+ ?x) with (String "d" x).
  rewrite (uptime_scan_number d "d") by done. simpl unit_seconds. cbv iota.
  change ("h" +:+ ?x) with (String "h" x).
  rewrite (uptime_scan_number h "h") by done. simpl unit_seconds. cbv iota.
  change ("m" +:+ ?x) with (String "m" x).
  rewrite (uptime_scan_number m "m") by done. simpl unit_seconds. cbv iota.
  change (pretty s +:+ "s") with (pretty s +:+ String "s" "").
  rewrite (uptime_scan_number s "s") by done. simpl. lia.
Qed.

Lemma X19_witness :
  parseUptimeToSeconds "1w2d3h4m5s" = 2 * 86400 + 3 * 3600 + 4 * 60 + 5.
Proof.
  destruct (X19_parseUptimeToSeconds_drops_weeks 1 2 3 4 5) as [H _];
    [by vm_compute|].
  etrans; [|exact H]. by vm_compute.
Defined.

(** * The callers of the manager *)

(** X20. [disconnectHotspotUser] looks only at [isConnected]: when it is
    false it logs and throws 'MikroTik router not connected' without
    touching the manager; when it is true it never throws and logs
    nothing, because the boolean the manager answers is dropped.  Over
    HTTP it therefore completes normally whatever the router answered,
    also when the removal was refused. *)
Theorem X20_disconnectHotspotUser_ignores_the_answer
    (m : MikroTikAPIManager) (userId : string) (env : environment) :
  let '(m', r, log) := disconnectHotspotUser m userId env in
  (Manager_isConnected m = false →
     m' = m ∧ r = Threw (Error "MikroTik router not connected")
     ∧ log = [Error "MikroTik router not connected"])
  ∧ (Manager_isConnected m = true → (∀ e, r ≠ Threw e) ∧ log = [])
  ∧ (currentApi m = Some ApiHttp → r = Returned tt ∧ log = []).
Proof.
  unfold disconnectHotspotUser, Manager_isConnected,
    Manager_disconnectActiveUser, Manager_op.
  destruct (currentApi m) as [[]|] eqn:Hcur.
  - unfold isConnected. destruct (connected (wsApi m)) eqn:Hc.
    + pose proof (λ e, run_op_bool_k_no_throw
                         (disconnectActiveUser_cmd userId) (wsApi m)
                         (ws_events env) e) as Hno.
      unfold disconnectActiveUser.
      destruct (run_op _ bool_k (wsApi m) (ws_events env)) as [[w r] rest].
      simpl in Hno. destruct r as [|b|e]; [by repeat split..|].
      by destruct (Hno e).
    + by repeat split.
  - unfold HTTP_disconnectActiveUser, HTTP_bool_k, HTTP.makeRequest.
    by destruct (fetch env 0%nat _) as [|[] ? ? []].
  - by repeat split.
Qed.

Lemma X20_witness :
  let m := (Manager_connect MikroTikAPIManager_new "10.0.0.1" "admin"
              "secret" (Some 80) false (env_reachable 0)).1.1 in
  let '(_, r, log) := disconnectHotspotUser m "*1" (env_unreachable 0) in
  (Manager_removeHotspotUser "*1" m (env_unreachable 0)).2 = Returned false
  ∧ r = Returned tt ∧ log = [].
Proof.
  pose proof (X20_disconnectHotspotUser_ignores_the_answer
                (Manager_connect MikroTikAPIManager_new "10.0.0.1" "admin"
                   "secret" (Some 80) false (env_reachable 0)).1.1
                "*1" (env_unreachable 0)) as H.
  cbv zeta.
  destruct (disconnectHotspotUser _ "*1" (env_unreachable 0))
    as [[m' r] log].
  destruct H as (_ & _ & Hhttp). split; [by vm_compute|].
  apply Hhttp. by vm_compute.
Defined.

(** * The connection test of the settings page *)

Lemma Manager_connect_config m h u pw pt useHttps env :
  config (Manager_connect m h u pw pt useHttps env).1.1
  = Some (config_of h u pw pt useHttps).
Proof.
  rewrite Manager_connect_unfold.
  destruct (ws_attempt _ _ _ _ _ _) as [[w2 [|[]|e]] rest]; cbv zeta;
    [done| |by rewrite connect_http_manager;
             destruct (HTTP.connect _ _ _ _ _ _ _)..].
  destruct (getSystemResource w2 rest) as [[w3 [|info|e]] rest'];
    [done..|].
  rewrite connect_http_manager. by destruct (HTTP.connect _ _ _ _ _ _ _).
Qed.

